(** * mollie-api-node: the resource-access layer

    A shallow embedding of the TypeScript sources
    ([errors/ApiError], [create-http-client], [resources/orders/lines],
    [resources/orders/shipments], [resources/payments/refunds],
    [resources/refunds]) and the properties stated for them.

    JavaScript values are a first-order datatype: objects are association
    lists in property order, strings are the UTF-8 bytes of the text and
    numbers are the integer-valued ones.  A step that can throw returns an
    option.  Methods are programs over a small instruction set (read or
    write [this.parentId], call a legacy callback, await the transport), so
    that the synchronous prefix of an [async] method and the continuation
    after its [await] can be run apart.  The Resource base class, the
    ApiException class and the model classes are not among the sources;
    what is needed of them is modelled from the specification and marked
    so. *)

From Stdlib Require Import String Ascii List ZArith Bool Lia DecimalString.
Import ListNotations.
Set Warnings "-register-all".
Local Open Scope list_scope.
Local Open Scope string_scope.

(* ================================================================== *)
(** ** JavaScript values *)

Module JS.

(** The fields of an object have distinct names. *)
Inductive value : Type :=
| VUndef
| VNull
| VBool (b : bool)
| VNum (n : Z)
| VStr (s : string)
| VArr (items : list value)
| VObj (fields : list (string * value)).

Definition string_of_nat (n : nat) : string :=
  NilZero.string_of_uint (Nat.to_uint n).

Definition string_of_Z (n : Z) : string :=
  NilZero.string_of_int (Z.to_int n).

(** [String(v)], the ToString conversion.  A [VNum] stands for an integer
    that JavaScript prints with all its digits (below 1e21 in magnitude);
    fractions, [NaN], the infinities and the numbers printed with an
    exponent have no value here. *)
Fixpoint toString (v : value) : string :=
  match v with
  | VUndef => "undefined"
  | VNull => "null"
  | VBool true => "true"
  | VBool false => "false"
  | VNum n => string_of_Z n
  | VStr s => s
  | VArr items =>
      (fix join (l : list value) : string :=
         match l with
         | [] => ""
         | x :: r =>
             let sx := match x with
                       | VUndef | VNull => ""
                       | _ => toString x
                       end in
             match r with
             | [] => sx
             | _ :: _ => sx ++ "," ++ join r
             end
         end) items
  | VObj _ => "[object Object]"
  end.

(** [typeof v === 'undefined'] *)
Definition is_undefined (v : value) : bool :=
  match v with VUndef => true | _ => false end.

(** [v == null] *)
Definition is_nullish (v : value) : bool :=
  match v with VUndef | VNull => true | _ => false end.

(** Truthiness, as used by [||] and [if]. *)
Definition truthy (v : value) : bool :=
  match v with
  | VUndef | VNull => false
  | VBool b => b
  | VNum n => negb (Z.eqb n 0)
  | VStr s => negb (String.eqb s "")
  | VArr _ | VObj _ => true
  end.

Fixpoint assoc {A : Type} (k : string) (fs : list (string * A)) : option A :=
  match fs with
  | [] => None
  | (k', x) :: r => if String.eqb k k' then Some x else assoc k r
  end.

Fixpoint indexed {A : Type} (i : nat) (l : list A) : list (string * A) :=
  match l with
  | [] => []
  | x :: r => (string_of_nat i, x) :: indexed (S i) r
  end.

Fixpoint chars (s : string) : list value :=
  match s with
  | EmptyString => []
  | String c r => VStr (String c EmptyString) :: chars r
  end.

(** The own enumerable properties of a value, in [Object.keys] order. *)
Definition own_props (v : value) : list (string * value) :=
  match v with
  | VObj fs => fs
  | VArr items => indexed 0 items
  | VStr s => indexed 0 (chars s)
  | _ => []
  end.

(** Whether [v] has an own enumerable property named [k].  On objects
    read from JSON, numbers and booleans this is
    [Object.prototype.hasOwnProperty.call(v, k)]; the [length] of an array
    or a string, which is own but not enumerable, is not among
    [own_props]. *)
Definition has_prop (v : value) (k : string) : bool :=
  match assoc k (own_props v) with Some _ => true | None => false end.

(** The own enumerable property [k] of [v], [undefined] when there is
    none.  This is the read [v[k]] of a [v] that is neither [null] nor
    [undefined] at every name but two kinds: [length] on an array or a
    string, and the names a prototype supplies ([constructor],
    [toString], ...), whose values are functions and have no [value]
    here.  The sources read [orderId], [paymentId], [apiKey], [headers]
    and the fields of a response body, none of which is of these
    kinds. *)
Definition member (v : value) (k : string) : value :=
  match assoc k (own_props v) with Some x => x | None => VUndef end.

(** The property read [v[k]] as the language runs it: a [TypeError], [None]
    here, when [v] is [null] or [undefined]; otherwise [member], on the
    names [member] covers. *)
Definition read (v : value) (k : string) : option value :=
  if is_nullish v then None else Some (member v k).

Notation "'let?' x := o 'in' k" :=
  (match o with Some x => k | None => None end)
  (at level 10, x name, o at level 100, k at level 200).

(** Writing [o[k] = x]: an existing key keeps its place, a new one goes
    last. *)
Fixpoint set_field (k : string) (x : value) (fs : list (string * value))
  : list (string * value) :=
  match fs with
  | [] => [(k, x)]
  | (k', y) :: r =>
      if String.eqb k k' then (k, x) :: r else (k', y) :: set_field k x r
  end.

(** [{ ...a, k1: x1, ..., kn: xn }] *)
Definition spread_then (a : value) (more : list (string * value))
  : list (string * value) :=
  fold_left (fun fs kx => set_field (fst kx) (snd kx) fs) more
            (fold_left (fun fs kx => set_field (fst kx) (snd kx) fs)
                       (own_props a) []).

Fixpoint remove_key (k : string) (fs : list (string * value))
  : list (string * value) :=
  match fs with
  | [] => []
  | (k', y) :: r =>
      if String.eqb k k' then remove_key k r else (k', y) :: remove_key k r
  end.

(** [const { k1, ..., kn, ...rest } = v]: the named properties and the
    object of the remaining ones.  Destructuring [null] or [undefined] is a
    [TypeError], [None] here. *)
Definition destructure (v : value) (names : list string)
  : option (list value * value) :=
  if is_nullish v then None
  else Some (map (member v) names,
             VObj (fold_left (fun fs k => remove_key k fs) names
                             (spread_then v []))).

(** [s.split(c)] for a one-character separator; [acc] is the piece read
    so far. *)
Fixpoint split_from (acc : string) (c : ascii) (s : string) : list string :=
  match s with
  | EmptyString => [acc]
  | String c' r =>
      if Ascii.eqb c' c
      then acc :: split_from "" c r
      else split_from (acc ++ String c' "") c r
  end.

Definition split (c : ascii) (s : string) : list string := split_from "" c s.

(** [s.slice(0, t.length) == t] *)
Definition starts_with (s t : string) : bool := String.prefix t s.

(** [s.includes(t)] *)
Fixpoint includes (s t : string) : bool :=
  String.prefix t s ||
  match s with
  | EmptyString => false
  | String _ r => includes r t
  end.

End JS.
Import JS.

(* ================================================================== *)
(** ** The lodash functions the sources import *)

Module Lodash.

(** [baseToString] *)
Fixpoint baseToString (v : value) : string :=
  match v with
  | VStr s => s
  | VArr items =>
      (fix join (l : list value) : string :=
         match l with
         | [] => ""
         | x :: r =>
             match r with
             | [] => baseToString x
             | _ :: _ => baseToString x ++ "," ++ join r
             end
         end) items
  | _ => JS.toString v
  end.

(** [_.toString]: [value == null ? '' : baseToString(value)] *)
Definition toString (v : value) : string :=
  if is_nullish v then "" else baseToString v.

(** [_.startsWith(string, target)] with the default position 0. *)
Definition startsWith (v : value) (target : string) : bool :=
  starts_with (toString v) target.

(** Splitting a property path at its dots.  (The bracket syntax of
    [stringToPath] is not modelled: the paths of the sources are dotted
    names.) *)
Definition stringToPath (path : string) : list string := split "." path.

(** [isKey(path, object)]: a name that is no deep path (no dot and no
    bracket in it), or a key of the object itself. *)
Definition isKey (path : string) (object : value) : bool :=
  negb (includes path "." || includes path "[")
  || (negb (is_nullish object) && has_prop object path).

Definition castPath (path : string) (object : value) : list string :=
  if isKey path object then [path] else stringToPath path.

(** The loop of [baseGet],
    [while (object != null && index < length) object = object[path[index++]]],
    and its result, [undefined] when the loop left before the end of the
    path.  Each property read is the language's, which can throw. *)
Fixpoint walk (object : value) (path : list string) : option value :=
  match path with
  | [] => Some object
  | k :: r =>
      if is_nullish object then Some VUndef
      else let? next := read object k in walk next r
  end.

Definition baseGet (object : value) (path : string) : option value :=
  walk object (castPath path object).

(** [_.get(object, path, defaultValue)]; [None] is a throw. *)
Definition get (object : value) (path : string) (defaultValue : value)
  : option value :=
  let? result :=
    (if is_nullish object then Some VUndef else baseGet object path) in
  Some (if is_undefined result then defaultValue else result).

(** The loop of [hasPath] under [baseHas]: every key of the path is an own
    property of the object reached so far.  (The fallback of [hasPath] for
    an index below the length of an array adds nothing here, arrays being
    dense.) *)
Fixpoint owns (object : value) (path : list string) : option bool :=
  match path with
  | [] => Some true
  | k :: r =>
      if is_nullish object || negb (has_prop object k) then Some false
      else let? next := read object k in owns next r
  end.

(** [_.has(object, path)]; [None] is a throw. *)
Definition has (object : value) (path : string) : option bool :=
  if is_nullish object then Some false
  else owns object (castPath path object).

(** [_.cloneDeep]: values are immutable here, a deep copy is the value. *)
Definition cloneDeep (v : value) : value := v.

End Lodash.

(* ================================================================== *)
(** ** errors/ApiError.ts *)

Module ApiError.

Record t : Type := mk {
  name : string;
  message : string;
  title : value;
  status : value;
  field : value;
  links : value
}.

(** [new Error(message)]: the message is ToString of a message that is not
    undefined, else the empty string. *)
Definition Error_message (message : value) : string :=
  if is_undefined message then "" else JS.toString message.

(** [constructor(message, title?, status?, field?, links?)] *)
Definition new (message title status field links : value) : t :=
  {| name := "ApiError";
     message := Error_message message;
     title := title;
     status := status;
     field := field;
     links := links |}.

Definition getMessage (e : t) : string := message e.
Definition getField (e : t) : value := field e.
Definition getStatusCode (e : t) : value := status e.
Definition hasLink (e : t) (key : string) : option bool :=
  Lodash.has (links e) key.
Definition getLink (e : t) (key : string) : option value :=
  Lodash.get (links e) key VUndef.
Definition getUrl (e : t) (key : string) : option value :=
  let? link := getLink e key in Lodash.get link "href" VUndef.
Definition getDocumentationUrl (e : t) : option value :=
  getUrl e "documentation".
Definition getDashboardUrl (e : t) : option value := getUrl e "dashboard".

(** [toString()]: the template literal [ApiError: ${this.message}] *)
Definition toString (e : t) : string := "ApiError: " ++ message e.

Definition fallback_message : string := "Received an error without a message".

(** [static createFromResponse(response)]: the arguments are evaluated
    left to right, a throw ([None]) in one of them leaves the method. *)
Definition createFromResponse (response : value) : option t :=
  let? detail := Lodash.get response "data.detail" (VStr fallback_message) in
  let? title := Lodash.get response "data.title" VUndef in
  let? status := Lodash.get response "data.status" VUndef in
  let? field := Lodash.get response "data.field" VUndef in
  let? links := Lodash.get response "data._links" VUndef in
  Some (new detail title status field (Lodash.cloneDeep links)).

End ApiError.

(* ================================================================== *)
(** ** Asynchronous methods as programs *)

Module Async.

(** What a [throw] carries, and what the future of an [async] method
    rejects with.  [TypeError] is raised by the language (its message is
    the engine's and is not modelled), [InvalidInput] is the local
    precondition failure, [ApiFailure] the classified HTTP failure. *)
Inductive error : Type :=
| TypeError
| InvalidInput (message : string)
| ApiFailure (e : ApiError.t).

Inductive result (A : Type) : Type :=
| Ok (a : A)
| Threw (e : error).
Arguments Ok {A} a.
Arguments Threw {A} e.

(** A legacy completion callback is known by its identity. *)
Definition callback : Type := nat.

(** An argument slot that the sources test with [typeof x === 'function']. *)
Inductive arg : Type :=
| AVal (v : value)
| AFun (cb : callback).

(** Whatever a caller passes to a method that declares no parameter. *)
Definition arguments : Type := list arg.

Definition is_function (a : arg) : bool :=
  match a with AFun _ => true | AVal _ => false end.

(** The slot read as an object: a function has none of the data
    properties the sources look up. *)
Definition arg_value (a : arg) : value :=
  match a with AVal v => v | AFun _ => VObj [] end.

(** [typeof params === 'function' ? params : cb] *)
Definition pick_callback (params : arg) (cb : option callback)
  : option callback :=
  match params with AFun c => Some c | AVal _ => cb end.

(** [typeof params === 'function' ? null : params] *)
Definition pick_params (params : arg) : value :=
  match params with AFun _ => VNull | AVal v => v end.

Definition is_some {A : Type} (o : option A) : bool :=
  match o with Some _ => true | None => false end.

Inductive http_method : Type := GET | POST | PATCH | DELETE.

Record request : Type := mkRequest {
  method : http_method;
  url : string;
  query : value;
  body : value
}.

(** What the transport settles with: the decoded body of a success, or
    the [response] of the error it throws. *)
Inductive response : Type :=
| Fulfilled (data : value)
| Failed (resp : value).

(** The instructions of a method body.  [Await] is the only suspension
    point: everything before it runs in one synchronous step.  A callback
    that is called returns; what it returns is not used. *)
Inductive prog (A : Type) : Type :=
| Ret (a : A)
| Throw (e : error)
| ReadParentId (k : value -> prog A)
| WriteParentId (v : value) (k : prog A)
| CallBack (cb : callback) (err : option error) (res : value) (k : prog A)
| Await (rq : request) (k : response -> prog A).
Arguments Ret {A} a.
Arguments Throw {A} e.
Arguments ReadParentId {A} k.
Arguments WriteParentId {A} v k.
Arguments CallBack {A} cb err res k.
Arguments Await {A} rq k.

Fixpoint bind {A B : Type} (p : prog A) (f : A -> prog B) : prog B :=
  match p with
  | Ret a => f a
  | Throw e => Throw e
  | ReadParentId k => ReadParentId (fun v => bind (k v) f)
  | WriteParentId v k => WriteParentId v (bind k f)
  | CallBack cb err res k => CallBack cb err res (bind k f)
  | Await rq k => Await rq (fun r => bind (k r) f)
  end.

Notation "x <- p ;; q" := (bind p (fun x => q))
  (at level 61, p at next level, right associativity).
Notation "' pat <- p ;; q" := (bind p (fun x => let 'pat := x in q))
  (at level 61, pat pattern, p at next level, right associativity).
Notation "p ;;; q" := (bind p (fun _ => q))
  (at level 61, right associativity).

(** [this.parentId] *)
Definition this_parentId : prog value := ReadParentId (fun v => Ret v).

(** [a || b], the right operand run only for a falsy left one *)
Definition or_else (a : value) (b : prog value) : prog value :=
  if truthy a then Ret a else b.

(** [if (c) { p }] as a statement *)
Definition when (c : bool) (p : prog value) : prog value :=
  if c then p else Ret VUndef.

(** A step of the language or of a library inside a method body: its
    throw is the method's. *)
Definition attempt {A : Type} (o : option A) : prog A :=
  match o with
  | Some a => Ret a
  | None => Throw TypeError
  end.

(** [const { name, ...rest } = v] *)
Definition destructure1 (v : value) (name : string) : prog (value * value) :=
  match destructure v [name] with
  | Some (x :: _, rest) => Ret (x, rest)
  | Some ([], rest) => Ret (VUndef, rest)
  | None => Throw TypeError
  end.

(** [const { ...rest } = v], as the build of the repository compiles a
    pattern that names no property: a copy of the own enumerable
    properties, [_extends({}, v)], which is the empty object for [null]
    and [undefined] and does not throw.  (Run natively, the pattern
    throws a [TypeError] there.) *)
Definition destructure0 (v : value) : prog value :=
  Ret (VObj (spread_then v [])).

(** What can be observed of a run: the requests handed to the transport
    and the callback invocations, in order. *)
Inductive event : Type :=
| Requested (rq : request)
| CalledBack (cb : callback) (err : option error) (res : value).

(** A resource instance ([this.parentId]) and the observations so far. *)
Record world : Type := mkWorld {
  parentId : value;
  trace : list event
}.

Definition log (e : event) (w : world) : world :=
  {| parentId := parentId w; trace := (trace w ++ [e])%list |}.

Definition bound (v : value) (w : world) : world :=
  {| parentId := v; trace := trace w |}.

(** A call after its synchronous prefix: settled, or suspended on the
    transport. *)
Inductive status (A : Type) : Type :=
| Settled (r : result A)
| Pending (rq : request) (k : response -> prog A).
Arguments Settled {A} r.
Arguments Pending {A} rq k.

(** Run a method up to its first [await]. *)
Fixpoint start {A : Type} (p : prog A) (w : world) : status A * world :=
  match p with
  | Ret a => (Settled (Ok a), w)
  | Throw e => (Settled (Threw e), w)
  | ReadParentId k => start (k (parentId w)) w
  | WriteParentId v k => start k (bound v w)
  | CallBack cb err res k => start k (log (CalledBack cb err res) w)
  | Await rq k => (Pending rq k, log (Requested rq) w)
  end.

(** Hand a suspended call its response. *)
Definition resume {A : Type} (k : response -> prog A) (r : response)
  (w : world) : status A * world :=
  start (k r) w.

(** Run a call to completion against a transport, nothing else running
    in between. *)
Fixpoint run {A : Type} (transport : request -> response) (p : prog A)
  (w : world) : result A * world :=
  match p with
  | Ret a => (Ok a, w)
  | Throw e => (Threw e, w)
  | ReadParentId k => run transport (k (parentId w)) w
  | WriteParentId v k => run transport k (bound v w)
  | CallBack cb err res k =>
      run transport k (log (CalledBack cb err res) w)
  | Await rq k => run transport (k (transport rq)) (log (Requested rq) w)
  end.

Fixpoint requests (t : list event) : list request :=
  match t with
  | [] => []
  | Requested rq :: r => rq :: requests r
  | CalledBack _ _ _ :: r => requests r
  end.

End Async.
Import Async.

(* ================================================================== *)
(** ** The model classes and the Resource base class *)

Module Models.

(** Modelled from the spec: [Order.resourcePrefix] (models/Order is not
    among the sources).  The id-prefix convention is a short fixed literal
    followed by an underscore, [ord_] for orders. *)
Definition Order_resourcePrefix : string := "ord_".

(** Modelled from the spec: [Shipment.resourcePrefix] (models/Shipment is
    not among the sources), a short fixed literal followed by an
    underscore; the literal is the one of the Mollie API. *)
Definition Shipment_resourcePrefix : string := "shp_".

(** Modelled from the spec: [Payment.resourcePrefix] (models/Payment is
    not among the sources), a short fixed literal followed by an
    underscore; the literal is the one of the Mollie API. *)
Definition Payment_resourcePrefix : string := "tr_".

(** Modelled from the spec: [Refund.resourcePrefix] (models/Refund is not
    among the sources), a short fixed literal followed by an underscore;
    the literal is the one of the Mollie API. *)
Definition Refund_resourcePrefix : string := "re_".

End Models.

Module Resource.

(** The fields every resource class sets: [resource] and [apiName]. *)
Record descriptor : Type := mkDescriptor {
  resource : string;
  apiName : string
}.

(** Modelled from the spec: the ApiException class (exceptions/ApiException
    is not among the sources).  What a disabled operation throws is the
    Invalid Input kind, carrying its message and no HTTP status. *)
Definition ApiException (message : string) : error := InvalidInput message.

(** Modelled from the spec: the error classifier behind
    [Resource.errorHandler] (resource.ts is not among the sources).  It
    turns a locally detected condition, which the sources hand over as
    [{ error: { message } }], into Invalid Input and a failed HTTP response
    into an API error. *)
Definition classify (response : value) : option error :=
  let? local := Lodash.get response "error.message" VUndef in
  match local with
  | VStr m => Some (InvalidInput m)
  | _ => let? e := ApiError.createFromResponse response in
         Some (ApiFailure e)
  end.

(** Modelled from the spec: [Resource.errorHandler(response, cb)].  The
    error is raised; when a legacy callback is in play it is also delivered
    as the callback's error argument, once, before the future settles, and
    both paths report the same error. *)
Definition errorHandler (response : value) (cb : option callback)
  : prog value :=
  e <- attempt (classify response) ;;
  match cb with
  | Some c => CallBack c (Some e) VUndef (Throw e)
  | None => Throw e
  end.

(** Modelled from the spec: [setParentId], the mutable instance field that
    stashes the parent id between calls. *)
Definition setParentId (parentId : value) : prog value :=
  WriteParentId parentId (Ret VUndef).

(** Modelled from the spec: path composition.  For a nested resource
    ([resource] is [parent_child]) the bound parent id is the segment just
    before the resource segment; the path is relative to the API root. *)
Definition getResourceUrl (d : descriptor) : prog string :=
  match split "_" (resource d) with
  | [parent; child] =>
      ReadParentId (fun p =>
        Ret (parent ++ "/" ++ JS.toString p ++ "/" ++ child))
  | _ => Ret (resource d)
  end.

(** Modelled from the spec: the success value goes to the legacy callback,
    when there is one, and is what the future resolves with. *)
Definition deliver (cb : option callback) (v : value) : prog value :=
  match cb with
  | Some c => CallBack c None v (Ret v)
  | None => Ret v
  end.

(** Modelled from the spec: one request through the transport; a success
    is hydrated and delivered, a failure goes through the classifier. *)
Definition send (rq : request) (hydrate : value -> value)
  (cb : option callback) : prog value :=
  Await rq (fun r =>
    match r with
    | Fulfilled data => deliver cb (hydrate data)
    | Failed resp => errorHandler resp cb
    end).

(** Modelled from the spec: an entity has exactly the fields of the raw
    response. *)
Definition hydrate (data : value) : value := data.

(** Modelled from the spec: the inherited [create] (resource.ts is not
    among the sources).  Like the four operations below it composes its
    path from the bound parent id and issues one request, here a POST with
    the params as body; the id checks are those the resource classes make
    before delegating. *)
Definition create (d : descriptor) (params : value) (cb : option callback)
  : prog value :=
  u <- getResourceUrl d ;;
  send (mkRequest POST u VUndef params) hydrate cb.

(** Modelled from the spec: the inherited [get], one GET on the path of
    the entity, the params as query. *)
Definition get (d : descriptor) (id : string) (params : value)
  (cb : option callback) : prog value :=
  u <- getResourceUrl d ;;
  send (mkRequest GET (u ++ "/" ++ id) params VUndef) hydrate cb.

(** Modelled from the spec: the inherited [list], one GET on the path of
    the collection, the params as query. *)
Definition list (d : descriptor) (params : value) (cb : option callback)
  : prog value :=
  u <- getResourceUrl d ;;
  send (mkRequest GET u params VUndef) hydrate cb.

(** Modelled from the spec: the inherited [update], one PATCH on the path
    of the entity, the params as body. *)
Definition update (d : descriptor) (id : string) (params : value)
  (cb : option callback) : prog value :=
  u <- getResourceUrl d ;;
  send (mkRequest PATCH (u ++ "/" ++ id) VUndef params) hydrate cb.

(** Modelled from the spec: the inherited [delete], one DELETE on the path
    of the entity; the result of a success is [true]. *)
Definition delete (d : descriptor) (id : string) (params : value)
  (cb : option callback) : prog value :=
  u <- getResourceUrl d ;;
  send (mkRequest DELETE (u ++ "/" ++ id) VUndef params)
       (fun _ => VBool true) cb.

(** The statement the resource classes share:
    [Resource.errorHandler(Resource.errorHandler({ error: { message } }, cb))] *)
Definition invalid (message : string) (cb : option callback) : prog value :=
  v <- errorHandler (VObj [("error", VObj [("message", VStr message)])]) cb ;;
  errorHandler v None.

(** The double quote character, as a string. *)
Definition dquote : string := String (ascii_of_nat 34) EmptyString.

(** The message of a disabled operation, the template literal
    [The method "${m}" does not exist on the "${this.apiName}"]. *)
Definition not_available (m : string) (d : descriptor) : string :=
  "The method " ++ dquote ++ m ++ dquote ++ " does not exist on the "
  ++ dquote ++ apiName d ++ dquote.

End Resource.

(* ================================================================== *)
(** ** resources/orders/lines.ts *)

Module OrdersLinesResource.

Definition this : Resource.descriptor :=
  {| Resource.resource := "orders_lines";
     Resource.apiName := "Orders API (Order Lines section)" |}.

Definition update (id : string) (params : value) (cb : option callback)
  : prog value :=
  parameters <- destructure0 params ;;
  when (negb (Lodash.startsWith (VStr id) Models.Order_resourcePrefix))
       (Resource.invalid "The order id is invalid" cb) ;;;
  Resource.setParentId (VStr id) ;;;
  Resource.update this id parameters cb.

Definition cancel (id : string) (params : value) (cb : option callback)
  : prog value :=
  when (negb (Lodash.startsWith (VStr id) Models.Order_resourcePrefix))
       (Resource.invalid "The order id is invalid" cb) ;;;
  parameters <- destructure0 params ;;
  Resource.setParentId (VStr id) ;;;
  Resource.delete this id parameters cb.

(** [delete = this.cancel] *)
Definition delete : string -> value -> option callback -> prog value :=
  cancel.

End OrdersLinesResource.

(* ================================================================== *)
(** ** resources/orders/shipments.ts *)

Module OrdersShipmentsResource.

Definition this : Resource.descriptor :=
  {| Resource.resource := "orders_shipments";
     Resource.apiName := "Shipments API" |}.

Definition create (params : value) (cb : option callback) : prog value :=
  '(orderId, parameters) <- destructure1 params "orderId" ;;
  when (negb (Lodash.startsWith orderId Models.Order_resourcePrefix))
       (Resource.invalid "The order id is invalid" cb) ;;;
  Resource.setParentId orderId ;;;
  Resource.create this parameters cb.

Definition update (id : string) (params : value) (cb : option callback)
  : prog value :=
  '(orderId, parameters) <- destructure1 params "orderId" ;;
  when (negb (Lodash.startsWith (VStr id) Models.Shipment_resourcePrefix))
       (Resource.invalid "The shipment id is invalid" cb) ;;;
  when (negb (Lodash.startsWith orderId Models.Order_resourcePrefix))
       (Resource.invalid "The order id is invalid" cb) ;;;
  Resource.setParentId orderId ;;;
  Resource.update this id parameters cb.

Definition get (id : string) (params : arg) (cb : option callback)
  : prog value :=
  if is_function params || is_some cb then
    (* Using callbacks (DEPRECATED SINCE 2.2.0) *)
    (given <- attempt (Lodash.get (arg_value params) "orderId" VUndef) ;;
      orderId <- or_else given this_parentId ;;
      when (negb (Lodash.startsWith orderId Models.Order_resourcePrefix))
           (Resource.invalid "The order id is invalid" cb) ;;;
      Resource.get this id (pick_params params) (pick_callback params cb))
  else
    '(orderId, parameters) <- destructure1 (arg_value params) "orderId" ;;
    when (negb (Lodash.startsWith orderId Models.Order_resourcePrefix))
         (Resource.invalid "The order id is invalid" cb) ;;;
    Resource.setParentId orderId ;;;
    Resource.get this id parameters cb.

Definition list (params : value) (cb : option callback) : prog value :=
  '(orderId, parameters) <- destructure1 params "orderId" ;;
  when (negb (Lodash.startsWith orderId Models.Order_resourcePrefix))
       (Resource.invalid "The order id is invalid" cb) ;;;
  Resource.setParentId orderId ;;;
  Resource.list this parameters cb.

(** The methods that are not available take no parameter: whatever is
    passed is ignored. *)
Definition cancel (_ : arguments) : prog value :=
  Throw (Resource.ApiException (Resource.not_available "cancel" this)).

Definition delete (_ : arguments) : prog value :=
  Throw (Resource.ApiException (Resource.not_available "delete" this)).

End OrdersShipmentsResource.

(* ================================================================== *)
(** ** resources/payments/refunds.ts *)

Module PaymentsRefundsResource.

Definition this : Resource.descriptor :=
  {| Resource.resource := "payments_refunds";
     Resource.apiName := "Refunds API" |}.

Definition create (params : value) (cb : option callback) : prog value :=
  '(paymentId, parameters) <- destructure1 params "paymentId" ;;
  when (negb (Lodash.startsWith paymentId Models.Payment_resourcePrefix))
       (Resource.invalid "The payment id is invalid" cb) ;;;
  Resource.setParentId paymentId ;;;
  Resource.create this parameters cb.

Definition get (id : string) (params : arg) (cb : option callback)
  : prog value :=
  when (negb (Lodash.startsWith (VStr id) Models.Refund_resourcePrefix))
       (Resource.invalid "The refund id is invalid" cb) ;;;
  if is_function params || is_some cb then
    (* Using callbacks (DEPRECATED SINCE 2.2.0) *)
    (given <- attempt (Lodash.get (arg_value params) "paymentId" VUndef) ;;
      paymentId <- or_else given this_parentId ;;
      when (negb (Lodash.startsWith paymentId Models.Payment_resourcePrefix))
           (Resource.invalid "The payment id is invalid" cb) ;;;
      Resource.get this id (pick_params params) (pick_callback params cb))
  else
    '(paymentId, parameters) <- destructure1 (arg_value params) "paymentId" ;;
    when (negb (Lodash.startsWith paymentId Models.Payment_resourcePrefix))
         (Resource.invalid "The payment id is invalid" cb) ;;;
    Resource.setParentId paymentId ;;;
    Resource.get this id parameters cb.

Definition list (params : arg) (cb : option callback) : prog value :=
  if is_function params || is_some cb then
    (* Using callbacks (DEPRECATED SINCE 2.2.0) *)
    Resource.list this (pick_params params) (pick_callback params cb)
  else
    Resource.list this (arg_value params) cb.

Definition cancel (id : string) (params : arg) (cb : option callback)
  : prog value :=
  when (negb (Lodash.startsWith (VStr id) Models.Refund_resourcePrefix))
       (Resource.invalid "The refund id is invalid" cb) ;;;
  if is_function params || is_some cb then
    (* Using callbacks (DEPRECATED SINCE 2.2.0) *)
    (given <- attempt (Lodash.get (arg_value params) "paymentId" VUndef) ;;
      paymentId <- or_else given this_parentId ;;
      when (negb (Lodash.startsWith paymentId Models.Payment_resourcePrefix))
           (Resource.invalid "The payment id is invalid" cb) ;;;
      Resource.delete this id (pick_params params) (pick_callback params cb))
  else
    '(paymentId, parameters) <- destructure1 (arg_value params) "paymentId" ;;
    when (negb (Lodash.startsWith paymentId Models.Payment_resourcePrefix))
         (Resource.invalid "The payment id is invalid" cb) ;;;
    Resource.setParentId paymentId ;;;
    Resource.delete this id parameters cb.

(** [all = this.list] *)
Definition all : arg -> option callback -> prog value := list.

(** [delete = this.cancel] *)
Definition delete : string -> arg -> option callback -> prog value := cancel.

Definition update (_ : arguments) : prog value :=
  Throw (Resource.ApiException (Resource.not_available "update" this)).

End PaymentsRefundsResource.

(* ================================================================== *)
(** ** resources/refunds.ts *)

Module RefundsResource.

Definition this : Resource.descriptor :=
  {| Resource.resource := "refunds";
     Resource.apiName := "Refunds API" |}.

Definition list (params : arg) (cb : option callback) : prog value :=
  if is_function params || is_some cb then
    (* Using callbacks (DEPRECATED SINCE 2.2.0) *)
    Resource.list this (pick_params params) (pick_callback params cb)
  else
    Resource.list this (arg_value params) cb.

(** [all = this.list] *)
Definition all : arg -> option callback -> prog value := list.

Definition create (_ : arguments) : prog value :=
  Throw (Resource.ApiException (Resource.not_available "create" this)).

Definition get (_ : arguments) : prog value :=
  Throw (Resource.ApiException (Resource.not_available "get" this)).

Definition update (_ : arguments) : prog value :=
  Throw (Resource.ApiException (Resource.not_available "update" this)).

Definition cancel (_ : arguments) : prog value :=
  Throw (Resource.ApiException (Resource.not_available "cancel" this)).

Definition delete (_ : arguments) : prog value :=
  Throw (Resource.ApiException (Resource.not_available "delete" this)).

End RefundsResource.

(* ================================================================== *)
(** ** The qs library: [qs.stringify] *)

Module Qs.

(** The [arrayFormat] option and its prefix generators. *)
Inductive arrayFormat : Type := indices | brackets | repeat.

Definition generateArrayPrefix (f : arrayFormat) (prefix key : string)
  : string :=
  match f with
  | brackets => prefix ++ "[]"
  | indices => prefix ++ "[" ++ key ++ "]"
  | repeat => prefix
  end.

(** The characters [utils.encode] leaves as they are: letters, digits and
    [-], [.], [_], [~]. *)
Definition unreserved (c : ascii) : bool :=
  let n := nat_of_ascii c in
  (Nat.leb 48 n && Nat.leb n 57) || (Nat.leb 65 n && Nat.leb n 90)
  || (Nat.leb 97 n && Nat.leb n 122)
  || Nat.eqb n 45 || Nat.eqb n 46 || Nat.eqb n 95 || Nat.eqb n 126.

Definition hex_digit (n : nat) : ascii :=
  nth n ["0"; "1"; "2"; "3"; "4"; "5"; "6"; "7";
         "8"; "9"; "A"; "B"; "C"; "D"; "E"; "F"]%char "0"%char.

Definition percent (c : ascii) : string :=
  let n := nat_of_ascii c in
  String "%" (String (hex_digit (n / 16))
                     (String (hex_digit (n mod 16)) EmptyString)).

(** [utils.encode] on the UTF-8 bytes of a string. *)
Fixpoint encode (s : string) : string :=
  match s with
  | EmptyString => EmptyString
  | String c r =>
      if unreserved c then String c (encode r) else percent c ++ encode r
  end.

(** The recursive [stringify] of the library under its default options
    but for the array format: the [key=value] pairs of one entry. *)
Fixpoint pairs (f : arrayFormat) (obj : value) (prefix : string)
  : list string :=
  match obj with
  | VUndef => []
  | VNull => [encode prefix ++ "=" ++ encode ""]
  | VBool _ | VNum _ | VStr _ =>
      [encode prefix ++ "=" ++ encode (JS.toString obj)]
  | VArr items =>
      (fix each (i : nat) (l : list value) : list string :=
         match l with
         | [] => []
         | x :: r =>
             (pairs f x (generateArrayPrefix f prefix (string_of_nat i))
              ++ each (S i) r)%list
         end) 0 items
  | VObj fields =>
      (fix each (l : list (string * value)) : list string :=
         match l with
         | [] => []
         | (k, x) :: r =>
             (pairs f x (prefix ++ "[" ++ k ++ "]") ++ each r)%list
         end) fields
  end.

(** [typeof obj !== 'object' || obj === null] *)
Definition not_an_object (obj : value) : bool :=
  match obj with
  | VArr _ | VObj _ => false
  | _ => true
  end.

(** [qs.stringify(object, { arrayFormat })] *)
Definition stringify_with (f : arrayFormat) (object : value) : string :=
  if not_an_object object then ""
  else String.concat "&" (flat_map (fun kx => pairs f (snd kx) (fst kx))
                          (own_props object)).

(** [qs.stringify(object)]: the default array format is [indices]. *)
Definition stringify (object : value) : string :=
  stringify_with indices object.

End Qs.

(* ================================================================== *)
(** ** create-http-client.ts *)

Module HttpClient.

(** What the module reads from its environment: the global [window]
    ([undefined] when there is none), [process.version], the [version] of
    package.json and the text of the bundled [cacert.pem] as
    [fs.readFileSync] returns it. *)
Record environment : Type := mkEnvironment {
  window : value;
  process_version : string;
  version : string;
  cacert : string
}.

(** [new https.Agent({ cert })] *)
Record Agent : Type := mkAgent { cert : string }.

(** [MollieRequestConfig]: the fields the function touches. *)
Record MollieRequestConfig : Type := mkConfig {
  apiKey : value;
  baseURL : value;
  headers : value;
  httpsAgent : option Agent;
  paramsSerializer : option (value -> string)
}.

Definition API_ROOT : string := "https://api.mollie.com:443/v2/".

(** [createHttpClient(options)]; the result stands for the instance
    [axios.create(options)] is given to configure. *)
Definition createHttpClient (env : environment)
  (options : MollieRequestConfig) : MollieRequestConfig :=
  let baseURL' := VStr API_ROOT in
  let headers' :=
    VObj (spread_then (headers options)
      [("Authorization", VStr ("Bearer " ++ JS.toString (apiKey options)));
       ("Accept-Encoding", VStr "gzip");
       ("Content-Type", VStr "application/json");
       ("User-Agent", VStr ("node.js/" ++ process_version env));
       ("X-Mollie-User-Agent", VStr ("mollie/" ++ version env))]) in
  let httpsAgent' :=
    if negb (is_undefined (window env))
    then Some (mkAgent (cacert env))
    else httpsAgent options in
  let paramsSerializer' :=
    match paramsSerializer options with
    | Some f => Some f
    | None => Some Qs.stringify
    end in
  {| apiKey := apiKey options;
     baseURL := baseURL';
     headers := headers';
     httpsAgent := httpsAgent';
     paramsSerializer := paramsSerializer' |}.

(** The query string the configured client makes of [params]. *)
Definition serialize (client : MollieRequestConfig) (params : value)
  : option string :=
  match paramsSerializer client with
  | Some f => Some (f params)
  | None => None
  end.

End HttpClient.

(* ================================================================== *)
(** ** The vocabulary of the statements *)

Module Statements.


(** The operations the resource classes switch off. *)
Inductive disabled : Type :=
| ShipmentsCancel
| ShipmentsDelete
| PaymentsRefundsUpdate
| RefundsCreate
| RefundsGet
| RefundsUpdate
| RefundsCancel
| RefundsDelete.

Definition disabled_call (d : disabled) (args : arguments) : prog value :=
  match d with
  | ShipmentsCancel => OrdersShipmentsResource.cancel args
  | ShipmentsDelete => OrdersShipmentsResource.delete args
  | PaymentsRefundsUpdate => PaymentsRefundsResource.update args
  | RefundsCreate => RefundsResource.create args
  | RefundsGet => RefundsResource.get args
  | RefundsUpdate => RefundsResource.update args
  | RefundsCancel => RefundsResource.cancel args
  | RefundsDelete => RefundsResource.delete args
  end.

Definition disabled_on (d : disabled) : Resource.descriptor :=
  match d with
  | ShipmentsCancel | ShipmentsDelete => OrdersShipmentsResource.this
  | PaymentsRefundsUpdate => PaymentsRefundsResource.this
  | _ => RefundsResource.this
  end.

(** The scalars an array-valued query parameter holds, and the entry the
    element at index [i] of parameter [key] gets in the [indices] format
    of qs and in its [repeat] format. *)
Inductive scalar : Type :=
| SBool (b : bool)
| SNum (n : Z)
| SStr (s : string).

Definition of_scalar (x : scalar) : value :=
  match x with
  | SBool b => VBool b
  | SNum n => VNum n
  | SStr s => VStr s
  end.

Definition indexed_entry (key : string) (ix : string * scalar) : string :=
  Qs.encode (key ++ "[" ++ fst ix ++ "]") ++ "="
  ++ Qs.encode (JS.toString (of_scalar (snd ix))).

Definition repeated_entry (key : string) (x : scalar) : string :=
  Qs.encode key ++ "=" ++ Qs.encode (JS.toString (of_scalar x)).

(** A client configuration the caller gave an API key and nothing else,
    outside a browser. *)
Definition node : HttpClient.environment :=
  HttpClient.mkEnvironment VUndef "v10.15.0" "2.3.2" "-----BEGIN CERTIFICATE-----".

Definition bare_options : HttpClient.MollieRequestConfig :=
  HttpClient.mkConfig (VStr "test_dHar4XY7LxsDOtmnkVtjNVWXLSlXsM")
                      VUndef VUndef None None.

(** The path of a nested collection under parent id [p], and of the
    entity [id] in a collection. *)
Definition nested (parent : string) (p : value) (child : string) : string :=
  parent ++ "/" ++ JS.toString p ++ "/" ++ child.

Definition entity (collection id : string) : string :=
  collection ++ "/" ++ id.

(** [const { name, ...rest } = params]: the [rest]. *)
Definition without (name : string) (params : value) : value :=
  VObj (remove_key name (spread_then params [])).

(** The instance after error [e] went to the legacy callback, when there
    is one. *)
Definition reported (cb : option callback) (e : error) (w : world) : world :=
  match cb with
  | Some c => log (CalledBack c (Some e) VUndef) w
  | None => w
  end.

(** The two-branch methods: promise style, or the callback style that is
    deprecated since 2.2.0. *)
Inductive lookup : Type :=
| ShipmentsGet
| PaymentsRefundsGet
| PaymentsRefundsCancel.

Definition lookup_call (m : lookup)
  : string -> arg -> option callback -> prog value :=
  match m with
  | ShipmentsGet => OrdersShipmentsResource.get
  | PaymentsRefundsGet => PaymentsRefundsResource.get
  | PaymentsRefundsCancel => PaymentsRefundsResource.cancel
  end.

(** The name of the parent id in the params, its prefix and the message
    of its check. *)
Definition lookup_key (m : lookup) : string :=
  match m with
  | ShipmentsGet => "orderId"
  | _ => "paymentId"
  end.

Definition lookup_prefix (m : lookup) : string :=
  match m with
  | ShipmentsGet => Models.Order_resourcePrefix
  | _ => Models.Payment_resourcePrefix
  end.

Definition lookup_message (m : lookup) : string :=
  match m with
  | ShipmentsGet => "The order id is invalid"
  | _ => "The payment id is invalid"
  end.

(** The check of the id of the call itself, where the method has one. *)
Definition lookup_id_ok (m : lookup) (id : string) : bool :=
  match m with
  | ShipmentsGet => true
  | _ => Lodash.startsWith (VStr id) Models.Refund_resourcePrefix
  end.

(** The request of the call for entity [id] under parent id [p]. *)
Definition lookup_request (m : lookup) (p : value) (id : string)
  (params : value) : request :=
  match m with
  | ShipmentsGet =>
      mkRequest GET (entity (nested "orders" p "shipments") id) params VUndef
  | PaymentsRefundsGet =>
      mkRequest GET (entity (nested "payments" p "refunds") id) params VUndef
  | PaymentsRefundsCancel =>
      mkRequest DELETE (entity (nested "payments" p "refunds") id)
                VUndef params
  end.

(** [get(params, key)]: the parent id a call carries in its params. *)
Definition given (params : arg) (key : string) : value :=
  match params with
  | AFun _ => VUndef
  | AVal v => if is_nullish v then VUndef else member v key
  end.

(** The calls that bind the parent id they carry: every create, update and
    list, the cancel of order lines, and get and cancel in promise
    style. *)
Inductive binding_call : Type :=
| LinesUpdate (id : string) (params : value) (cb : option callback)
| LinesCancel (id : string) (params : value) (cb : option callback)
| ShipmentCreate (params : value) (cb : option callback)
| ShipmentUpdate (id : string) (params : value) (cb : option callback)
| ShipmentList (params : value) (cb : option callback)
| ShipmentGet (id : string) (params : value)
| RefundCreate (params : value) (cb : option callback)
| RefundGet (id : string) (params : value)
| RefundCancel (id : string) (params : value).

Definition program (c : binding_call) : prog value :=
  match c with
  | LinesUpdate id params cb => OrdersLinesResource.update id params cb
  | LinesCancel id params cb => OrdersLinesResource.cancel id params cb
  | ShipmentCreate params cb => OrdersShipmentsResource.create params cb
  | ShipmentUpdate id params cb => OrdersShipmentsResource.update id params cb
  | ShipmentList params cb => OrdersShipmentsResource.list params cb
  | ShipmentGet id params => OrdersShipmentsResource.get id (AVal params) None
  | RefundCreate params cb => PaymentsRefundsResource.create params cb
  | RefundGet id params => PaymentsRefundsResource.get id (AVal params) None
  | RefundCancel id params =>
      PaymentsRefundsResource.cancel id (AVal params) None
  end.

(** The parent id the call carries. *)
Definition own_parent (c : binding_call) : value :=
  match c with
  | LinesUpdate id _ _ | LinesCancel id _ _ => VStr id
  | ShipmentCreate params _ | ShipmentUpdate _ params _
  | ShipmentList params _ | ShipmentGet _ params => member params "orderId"
  | RefundCreate params _ | RefundGet _ params | RefundCancel _ params =>
      member params "paymentId"
  end.

(** The params of the call and its trailing callback. *)
Definition params_of (c : binding_call) : value :=
  match c with
  | LinesUpdate _ params _ | LinesCancel _ params _
  | ShipmentCreate params _ | ShipmentUpdate _ params _
  | ShipmentList params _ | ShipmentGet _ params
  | RefundCreate params _ | RefundGet _ params | RefundCancel _ params =>
      params
  end.

Definition trailing (c : binding_call) : option callback :=
  match c with
  | LinesUpdate _ _ cb | LinesCancel _ _ cb
  | ShipmentCreate _ cb | ShipmentUpdate _ _ cb | ShipmentList _ cb
  | RefundCreate _ cb => cb
  | ShipmentGet _ _ | RefundGet _ _ | RefundCancel _ _ => None
  end.

(** The prefix the parent id is checked against and the message of the
    check. *)
Definition parent_prefix (c : binding_call) : string :=
  match c with
  | RefundCreate _ _ | RefundGet _ _ | RefundCancel _ _ =>
      Models.Payment_resourcePrefix
  | _ => Models.Order_resourcePrefix
  end.

Definition parent_message (c : binding_call) : string :=
  match c with
  | RefundCreate _ _ | RefundGet _ _ | RefundCancel _ _ =>
      "The payment id is invalid"
  | _ => "The order id is invalid"
  end.

(** The call has params to destructure and, where the method checks an
    id other than the parent's, an id that passes. *)
Definition ready (c : binding_call) : bool :=
  negb (is_nullish (params_of c))
  && match c with
     | ShipmentUpdate id _ _ =>
         Lodash.startsWith (VStr id) Models.Shipment_resourcePrefix
     | RefundGet id _ | RefundCancel id _ =>
         Lodash.startsWith (VStr id) Models.Refund_resourcePrefix
     | _ => true
     end.

(** The check of the parent id of the call. *)
Definition parent_ok (c : binding_call) : bool :=
  Lodash.startsWith (own_parent c) (parent_prefix c).

Definition well_formed (c : binding_call) : bool :=
  ready c && parent_ok c.

(** The request of the call, its path composed from the parent id [p]. *)
Definition request_under (p : value) (c : binding_call) : request :=
  match c with
  | LinesUpdate id params _ =>
      mkRequest PATCH (entity (nested "orders" p "lines") id) VUndef
                (VObj (spread_then params []))
  | LinesCancel id params _ =>
      mkRequest DELETE (entity (nested "orders" p "lines") id) VUndef
                (VObj (spread_then params []))
  | ShipmentCreate params _ =>
      mkRequest POST (nested "orders" p "shipments") VUndef
                (without "orderId" params)
  | ShipmentUpdate id params _ =>
      mkRequest PATCH (entity (nested "orders" p "shipments") id) VUndef
                (without "orderId" params)
  | ShipmentList params _ =>
      mkRequest GET (nested "orders" p "shipments")
                (without "orderId" params) VUndef
  | ShipmentGet id params =>
      mkRequest GET (entity (nested "orders" p "shipments") id)
                (without "orderId" params) VUndef
  | RefundCreate params _ =>
      mkRequest POST (nested "payments" p "refunds") VUndef
                (without "paymentId" params)
  | RefundGet id params =>
      mkRequest GET (entity (nested "payments" p "refunds") id)
                (without "paymentId" params) VUndef
  | RefundCancel id params =>
      mkRequest DELETE (entity (nested "payments" p "refunds") id) VUndef
                (without "paymentId" params)
  end.

Definition own_request (c : binding_call) : request :=
  request_under (own_parent c) c.

(** What the call does with its response: the inherited operation
    delivers the entity (or [true], for a cancel) or classifies the
    failure. *)
Definition continuation (c : binding_call) (r : response) : prog value :=
  match r with
  | Fulfilled data =>
      Resource.deliver (trailing c)
        (match c with
         | LinesCancel _ _ _ | RefundCancel _ _ => VBool true
         | _ => Resource.hydrate data
         end)
  | Failed resp => Resource.errorHandler resp (trailing c)
  end.

(** One resource instance under calls that overlap: the instance, and the
    continuations of the calls that await their response, oldest first. *)
Record shared : Type := mkShared {
  instance : world;
  awaiting : list (response -> prog value)
}.

(** What can happen next: a caller begins a call, or the transport
    settles the call at position [n] among those that wait. *)
Inductive action : Type :=
| Begin (c : binding_call)
| Deliver (n : nat) (r : response).

Fixpoint drop_nth {A : Type} (n : nat) (l : list A) : list A :=
  match l, n with
  | [], _ => []
  | _ :: r, O => r
  | x :: r, S m => x :: drop_nth m r
  end.

Definition act (s : shared) (a : action) : shared :=
  match a with
  | Begin c =>
      match start (program c) (instance s) with
      | (Pending _ k, w) => mkShared w (awaiting s ++ [k])%list
      | (Settled _, w) => mkShared w (awaiting s)
      end
  | Deliver n r =>
      match nth_error (awaiting s) n with
      | Some k =>
          mkShared (snd (resume k r (instance s))) (drop_nth n (awaiting s))
      | None => s
      end
  end.

(** An interleaving of beginnings and deliveries, in the order they
    happen on the single thread. *)
Definition interleave (l : list action) (s : shared) : shared :=
  fold_left act l s.

(** The calls an interleaving begins, in order. *)
Fixpoint begun (l : list action) : list binding_call :=
  match l with
  | [] => []
  | Begin c :: r => c :: begun r
  | Deliver _ _ :: r => begun r
  end.

(** A continuation that settles when it gets its response, without a
    further request and without touching the binding. *)
Definition final (k : response -> prog value) : Prop :=
  forall r w,
    exists x new,
      start (k r) w
      = (Settled x, mkWorld (parentId w) (trace w ++ new)%list)
      /\ requests new = [].

(** Every operation of the four resource classes, by name.  A method
    that declares no params slot for a function reads a function it is
    handed there as the object it is. *)
Inductive operation : Type :=
| Lines_update | Lines_cancel | Lines_delete
| Shipments_create | Shipments_update | Shipments_get | Shipments_list
| PaymentsRefunds_create | PaymentsRefunds_get | PaymentsRefunds_list
| PaymentsRefunds_all | PaymentsRefunds_cancel | PaymentsRefunds_delete
| Refunds_list | Refunds_all
| Unavailable (d : disabled).

Definition invoke (o : operation) (id : string) (params : arg)
  (cb : option callback) : prog value :=
  match o with
  | Lines_update => OrdersLinesResource.update id (arg_value params) cb
  | Lines_cancel => OrdersLinesResource.cancel id (arg_value params) cb
  | Lines_delete => OrdersLinesResource.delete id (arg_value params) cb
  | Shipments_create => OrdersShipmentsResource.create (arg_value params) cb
  | Shipments_update =>
      OrdersShipmentsResource.update id (arg_value params) cb
  | Shipments_get => OrdersShipmentsResource.get id params cb
  | Shipments_list => OrdersShipmentsResource.list (arg_value params) cb
  | PaymentsRefunds_create =>
      PaymentsRefundsResource.create (arg_value params) cb
  | PaymentsRefunds_get => PaymentsRefundsResource.get id params cb
  | PaymentsRefunds_list => PaymentsRefundsResource.list params cb
  | PaymentsRefunds_all => PaymentsRefundsResource.all params cb
  | PaymentsRefunds_cancel => PaymentsRefundsResource.cancel id params cb
  | PaymentsRefunds_delete => PaymentsRefundsResource.delete id params cb
  | Refunds_list => RefundsResource.list params cb
  | Refunds_all => RefundsResource.all params cb
  | Unavailable d => disabled_call d [params]
  end.

(** The callback invocations among the events. *)
Fixpoint invocations (t : list event)
  : list (callback * option error * value) :=
  match t with
  | [] => []
  | Requested _ :: r => invocations r
  | CalledBack c err res :: r => (c, err, res) :: invocations r
  end.

(** What a callback was given is what the future settled with: the value
    it resolved with and no error, or the error it rejected with. *)
Definition settled_with (r : result value) (err : option error)
  (res : value) : Prop :=
  match r with
  | Ok v => err = None /\ res = v
  | Threw e => err = Some e
  end.

(** A program that calls no callback and ends in what a callback was
    given, whatever it reads and whatever the transport answers. *)
Fixpoint ends_with (p : prog value) (err : option error) (res : value)
  : Prop :=
  match p with
  | Ret a => err = None /\ res = a
  | Throw e => err = Some e
  | ReadParentId k => forall v, ends_with (k v) err res
  | WriteParentId _ k => ends_with k err res
  | CallBack _ _ _ _ => False
  | Await _ k => forall r, ends_with (k r) err res
  end.

(** The callbacks a call supplies: the trailing one and a function in
    the params slot. *)
Definition supplied (params : arg) (cb : option callback) (c : callback)
  : Prop :=
  cb = Some c \/ params = AFun c.

(** A program that, on each of its paths, calls a callback at most once,
    one of those it is [allowed], and then ends in what it gave it. *)
Fixpoint once (allowed : callback -> Prop) (p : prog value) : Prop :=
  match p with
  | Ret _ | Throw _ => True
  | ReadParentId k => forall v, once allowed (k v)
  | WriteParentId _ k => once allowed k
  | CallBack c err res k => allowed c /\ ends_with k err res
  | Await _ k => forall r, once allowed (k r)
  end.

(** [v[k]] behind a null guard: [undefined] on [null] and [undefined]. *)
Definition property (v : value) (k : string) : value :=
  if is_nullish v then VUndef else member v k.

(** The names of the own properties of a value are distinct, as those of
    an object are. *)
Definition distinct_names (v : value) : Prop :=
  NoDup (map fst (own_props v)).

(** The names of the headers [createHttpClient] sets itself. *)
Definition fixed_names : list string :=
  ["Authorization"; "Accept-Encoding"; "Content-Type"; "User-Agent";
   "X-Mollie-User-Agent"].

(** The name under which the params of a binding call carry the parent
    id; on order lines the parent id is the id argument. *)
Definition parent_key (c : binding_call) : option string :=
  match c with
  | LinesUpdate _ _ _ | LinesCancel _ _ _ => None
  | ShipmentCreate _ _ | ShipmentUpdate _ _ _ | ShipmentList _ _
  | ShipmentGet _ _ => Some "orderId"
  | RefundCreate _ _ | RefundGet _ _ | RefundCancel _ _ => Some "paymentId"
  end.

(** The params a binding call passes on: the rest of the destructuring. *)
Definition passed_on (c : binding_call) : value :=
  match parent_key c with
  | Some k => without k (params_of c)
  | None => VObj (spread_then (params_of c) [])
  end.

(** The inherited operation a binding call ends in. *)
Definition delegate (c : binding_call) : prog value :=
  match c with
  | LinesUpdate id _ cb =>
      Resource.update OrdersLinesResource.this id (passed_on c) cb
  | LinesCancel id _ cb =>
      Resource.delete OrdersLinesResource.this id (passed_on c) cb
  | ShipmentCreate _ cb =>
      Resource.create OrdersShipmentsResource.this (passed_on c) cb
  | ShipmentUpdate id _ cb =>
      Resource.update OrdersShipmentsResource.this id (passed_on c) cb
  | ShipmentList _ cb =>
      Resource.list OrdersShipmentsResource.this (passed_on c) cb
  | ShipmentGet id _ =>
      Resource.get OrdersShipmentsResource.this id (passed_on c) None
  | RefundCreate _ cb =>
      Resource.create PaymentsRefundsResource.this (passed_on c) cb
  | RefundGet id _ =>
      Resource.get PaymentsRefundsResource.this id (passed_on c) None
  | RefundCancel id _ =>
      Resource.delete PaymentsRefundsResource.this id (passed_on c) None
  end.

(** A value that is neither a string nor an array. *)
Definition not_text (v : value) : bool :=
  match v with
  | VStr _ | VArr _ => false
  | _ => true
  end.

(** The characters a percent-encoded string is made of. *)
Definition encoded_char (c : ascii) : bool :=
  Qs.unreserved c || Ascii.eqb c "%".

Fixpoint all_chars (f : ascii -> bool) (s : string) : bool :=
  match s with
  | EmptyString => true
  | String c r => f c && all_chars f r
  end.

(** A resource instance nothing was bound on and nothing was observed of,
    and a transport that answers every request with the same entity. *)
Definition fresh : world := mkWorld VUndef [].

Definition answering (data : value) (rq : request) : response :=
  Fulfilled data.

End Statements.
Import Statements.

(* ================================================================== *)
(** * Properties *)

(** ** Strings *)

Lemma prefix_app (t s : string) : String.prefix t (t ++ s) = true.
Proof.
  induction t as [|c t IH]; simpl.
  - destruct s; reflexivity.
  - destruct (ascii_dec c c) as [_|N]; [exact IH | now elim N].
Qed.

Lemma includes_here (s t : string) : includes (t ++ s) t = true.
Proof.
  destruct t as [|c t]; simpl.
  - destruct s; reflexivity.
  - destruct (ascii_dec c c) as [_|N]; [|now elim N].
    now rewrite prefix_app.
Qed.

Lemma includes_later (p s t : string) :
  includes s t = true -> includes (p ++ s) t = true.
Proof.
  intros H. induction p as [|c p IH]; simpl; [exact H|].
  rewrite IH. apply orb_true_r.
Qed.

(** ** lodash get never throws *)

Lemma read_defined (v : value) (k : string) :
  is_nullish v = false -> read v k = Some (member v k).
Proof. intros H. unfold read. now rewrite H. Qed.

Lemma walk_total (path : list string) :
  forall object, exists v, Lodash.walk object path = Some v.
Proof.
  induction path as [|k r IH]; intros object; simpl.
  - now exists object.
  - destruct (is_nullish object) eqn:E.
    + now exists VUndef.
    + rewrite (read_defined _ _ E). apply IH.
Qed.

Lemma get_total (object : value) (path : string) (d : value) :
  exists v, Lodash.get object path d = Some v.
Proof.
  unfold Lodash.get. destruct (is_nullish object).
  - eexists. reflexivity.
  - unfold Lodash.baseGet.
    destruct (walk_total (Lodash.castPath path object) object) as [v E].
    rewrite E. eexists. reflexivity.
Qed.

Lemma get_plain (object : value) (k : string) (d : value) :
  includes k "." = false -> includes k "[" = false ->
  Lodash.get object k d =
  Some (let x := if is_nullish object then VUndef else member object k in
        if is_undefined x then d else x).
Proof.
  intros H1 H2. unfold Lodash.get, Lodash.baseGet, Lodash.castPath, Lodash.isKey.
  rewrite H1, H2. simpl.
  destruct (is_nullish object) eqn:E; [reflexivity|].
  rewrite (read_defined _ _ E). reflexivity.
Qed.


Lemma createFromResponse_never_throws (response : value) :
  exists e, ApiError.createFromResponse response = Some e.
Proof.
  unfold ApiError.createFromResponse.
  destruct (get_total response "data.detail" (VStr ApiError.fallback_message))
    as [a ->].
  destruct (get_total response "data.title" VUndef) as [b ->].
  destruct (get_total response "data.status" VUndef) as [c ->].
  destruct (get_total response "data.field" VUndef) as [d ->].
  destruct (get_total response "data._links" VUndef) as [l ->].
  eexists. reflexivity.
Qed.

Lemma undefined_default (x : value) :
  (if is_undefined x then VUndef else x) = x.
Proof. now destruct x. Qed.



(** ** Operations that are not available *)

Lemma not_available_names (m : string) (d : Resource.descriptor) :
  includes (Resource.not_available m d) (Resource.apiName d) = true
  /\ includes (Resource.not_available m d) "does not exist" = true.
Proof.
  unfold Resource.not_available. split.
  - do 6 apply includes_later. apply includes_here.
  - do 4 apply includes_later.
    apply (includes_later " " ("does not exist on the " ++ _)).
    apply (includes_here (" on the " ++ _) "does not exist").
Qed.

(** C5.  Every operation a resource class switches off (cancel and delete
    on order shipments, update on payment refunds, create, get, update,
    cancel and delete on refunds) raises Invalid Input whatever it is
    called with; the message contains the API name of the resource and the
    words "does not exist"; nothing is bound, no callback is called and the
    transport is not invoked. *)
Theorem C5_disabled_operation_raises_invalid_input
  (d : disabled) (args : arguments) (transport : request -> response)
  (w : world) :
  exists message,
    run transport (disabled_call d args) w = (Threw (InvalidInput message), w)
    /\ start (disabled_call d args) w
       = (Settled (Threw (InvalidInput message)), w)
    /\ includes message (Resource.apiName (disabled_on d)) = true
    /\ includes message "does not exist" = true.
Proof.
  destruct d; eexists; (split; [reflexivity|]); (split; [reflexivity|]);
    apply not_available_names.
Qed.

(** ** delete and cancel *)

(** C6, as stated, fails on order shipments: both names are there, both
    are switched off, and each raises a message that quotes its own
    name. *)
Lemma C6_shipments_delete_is_not_cancel :
  run (answering VNull) (OrdersShipmentsResource.delete []) fresh
  = (Threw (InvalidInput
       (Resource.not_available "delete" OrdersShipmentsResource.this)),
     fresh)
  /\ run (answering VNull) (OrdersShipmentsResource.cancel []) fresh
     = (Threw (InvalidInput
          (Resource.not_available "cancel" OrdersShipmentsResource.this)),
        fresh)
  /\ run (answering VNull) (OrdersShipmentsResource.delete []) fresh
     <> run (answering VNull) (OrdersShipmentsResource.cancel []) fresh.
Proof.
  split; [reflexivity|]. split; [reflexivity|].
  vm_compute. discriminate.
Qed.

(** C6, amended.  On order lines and on payment refunds, where [delete] is
    declared as [this.cancel], calling delete is calling cancel: the same
    result, the same errors, the same callbacks and requests, from every
    instance state and against every transport.  On order shipments and
    on refunds both names are switched off: each raises Invalid Input
    with its own name in the message, and nothing else happens. *)
Theorem C6_delete_is_cancel_where_aliased :
  (forall id params cb transport w,
      run transport (OrdersLinesResource.delete id params cb) w
      = run transport (OrdersLinesResource.cancel id params cb) w
      /\ start (OrdersLinesResource.delete id params cb) w
         = start (OrdersLinesResource.cancel id params cb) w)
  /\ (forall id params cb transport w,
         run transport (PaymentsRefundsResource.delete id params cb) w
         = run transport (PaymentsRefundsResource.cancel id params cb) w
         /\ start (PaymentsRefundsResource.delete id params cb) w
            = start (PaymentsRefundsResource.cancel id params cb) w)
  /\ (forall args transport w,
         run transport (OrdersShipmentsResource.delete args) w
         = (Threw (InvalidInput
              (Resource.not_available "delete" OrdersShipmentsResource.this)),
            w)
         /\ run transport (OrdersShipmentsResource.cancel args) w
            = (Threw (InvalidInput
                 (Resource.not_available "cancel"
                    OrdersShipmentsResource.this)),
               w))
  /\ (forall args transport w,
         run transport (RefundsResource.delete args) w
         = (Threw (InvalidInput
              (Resource.not_available "delete" RefundsResource.this)),
            w)
         /\ run transport (RefundsResource.cancel args) w
            = (Threw (InvalidInput
                 (Resource.not_available "cancel" RefundsResource.this)),
               w)).
Proof.
  repeat split; reflexivity.
Qed.

(** ** Calls without a params object *)

Lemma invalid_without_callback (message : string) :
  Resource.invalid message None = Throw (InvalidInput message).
Proof. reflexivity. Qed.

Lemma invalid_with_callback (message : string) (c : callback) :
  Resource.invalid message (Some c)
  = CallBack c (Some (InvalidInput message)) VUndef
             (Throw (InvalidInput message)).
Proof. reflexivity. Qed.

(** C9, as stated, fails for [PaymentsRefundsResource.cancel]: the refund
    id is checked before the params are destructured, so a call with an id
    that has not the refund prefix raises Invalid Input for the id and
    never reaches the destructuring.  It fails as well for the update of
    an order line, whose pattern [{ ...parameters }] names no property:
    as the repository builds it, [undefined] params are copied to an
    empty object and the request is made. *)
Lemma C9_cancel_checks_the_refund_id_first :
  run (answering VNull)
      (PaymentsRefundsResource.cancel "xyz_1" (AVal VUndef) None) fresh
  = (Threw (InvalidInput "The refund id is invalid"), fresh)
  /\ fst (run (answering VNull)
              (PaymentsRefundsResource.cancel "xyz_1" (AVal VUndef) None)
              fresh)
     <> Threw TypeError
  /\ requests (trace (snd (run (answering VNull)
                 (OrdersLinesResource.update "ord_1" VUndef None) fresh)))
     = [mkRequest PATCH "orders/ord_1/lines/ord_1" VUndef (VObj [])].
Proof.
  split; [reflexivity|]. split; [vm_compute; discriminate|reflexivity].
Qed.

(** C9, amended.  Called with [undefined] for params and no callback, the
    operations that destructure the parent id out of their params throw
    the raw [TypeError] and not Invalid Input for the missing parent:
    create, update, get and list on order shipments and create on payment
    refunds for every id, get and cancel on payment refunds, which check
    the id of the call first, when that id has the refund prefix (they
    raise Invalid Input for the id otherwise).  No parent id is bound, no
    callback is called and no request is made. *)
Theorem C9_undefined_params_is_a_type_error
  (transport : request -> response) (w : world) :
  run transport (OrdersShipmentsResource.list VUndef None) w
  = (Threw TypeError, w)
  /\ run transport (OrdersShipmentsResource.create VUndef None) w
     = (Threw TypeError, w)
  /\ run transport (PaymentsRefundsResource.create VUndef None) w
     = (Threw TypeError, w)
  /\ (forall id,
         run transport (OrdersShipmentsResource.update id VUndef None) w
         = (Threw TypeError, w))
  /\ (forall id,
         run transport (OrdersShipmentsResource.get id (AVal VUndef) None) w
         = (Threw TypeError, w))
  /\ (forall id,
         run transport (PaymentsRefundsResource.cancel id (AVal VUndef) None) w
         = (Threw (if Lodash.startsWith (VStr id) Models.Refund_resourcePrefix
                   then TypeError
                   else InvalidInput "The refund id is invalid"), w))
  /\ (forall id,
         run transport (PaymentsRefundsResource.get id (AVal VUndef) None) w
         = (Threw (if Lodash.startsWith (VStr id) Models.Refund_resourcePrefix
                   then TypeError
                   else InvalidInput "The refund id is invalid"), w)).
Proof.
  repeat split; try reflexivity; intros id.
  - unfold PaymentsRefundsResource.cancel.
    destruct (Lodash.startsWith _ _); reflexivity.
  - unfold PaymentsRefundsResource.get.
    destruct (Lodash.startsWith _ _); reflexivity.
Qed.

(** ** The HTTP client *)

Lemma assoc_set_field_same (k : string) (x : value) fs :
  assoc k (set_field k x fs) = Some x.
Proof.
  induction fs as [|[k' y] r IH]; simpl.
  - now rewrite String.eqb_refl.
  - destruct (String.eqb k k') eqn:E; simpl.
    + now rewrite String.eqb_refl.
    + now rewrite E.
Qed.

Lemma assoc_set_field_other (k k' : string) (x : value) fs :
  String.eqb k k' = false ->
  assoc k (set_field k' x fs) = assoc k fs.
Proof.
  intros N. induction fs as [|[k2 y] r IH]; simpl.
  - now rewrite N.
  - destruct (String.eqb k' k2) eqn:E; simpl.
    + apply String.eqb_eq in E. subst k2. now rewrite N.
    + now rewrite IH.
Qed.

(** C10.  [createHttpClient] installs the agent that carries the bundled
    root certificate exactly when a global [window] is defined, and leaves
    the caller's agent in place otherwise; in every environment the base
    URL of the result is the fixed API root, whatever the caller supplied,
    and its Authorization header is "Bearer " followed by the API key,
    whatever headers the caller supplied. *)
Theorem C10_createHttpClient_configuration
  (env : HttpClient.environment) (options : HttpClient.MollieRequestConfig) :
  let client := HttpClient.createHttpClient env options in
  HttpClient.httpsAgent client
  = (if is_undefined (HttpClient.window env)
     then HttpClient.httpsAgent options
     else Some (HttpClient.mkAgent (HttpClient.cacert env)))
  /\ HttpClient.baseURL client = VStr "https://api.mollie.com:443/v2/"
  /\ member (HttpClient.headers client) "Authorization"
     = VStr ("Bearer " ++ JS.toString (HttpClient.apiKey options)).
Proof.
  cbv zeta. unfold HttpClient.createHttpClient. cbn [HttpClient.httpsAgent
    HttpClient.baseURL HttpClient.headers].
  split; [now destruct (is_undefined (HttpClient.window env))|].
  split; [reflexivity|].
  unfold member, spread_then. cbn [own_props fold_left fst snd].
  rewrite !assoc_set_field_other by reflexivity.
  now rewrite assoc_set_field_same.
Qed.

Lemma pairs_scalar (f : Qs.arrayFormat) (x : scalar) (prefix : string) :
  Qs.pairs f (of_scalar x) prefix
  = [Qs.encode prefix ++ "=" ++ Qs.encode (JS.toString (of_scalar x))].
Proof. now destruct x. Qed.

Lemma pairs_array_indices (key : string) (items : list scalar) :
  Qs.pairs Qs.indices (VArr (map of_scalar items)) key
  = map (indexed_entry key) (indexed 0 items).
Proof.
  cbn [Qs.pairs]. generalize 0.
  induction items as [|x r IH]; intros i; [reflexivity|].
  cbn [map indexed]. rewrite pairs_scalar, IH. reflexivity.
Qed.

Lemma pairs_array_repeat (key : string) (items : list scalar) :
  Qs.pairs Qs.repeat (VArr (map of_scalar items)) key
  = map (repeated_entry key) items.
Proof.
  cbn [Qs.pairs]. generalize 0.
  induction items as [|x r IH]; intros i; [reflexivity|].
  cbn [map]. rewrite pairs_scalar, IH. reflexivity.
Qed.

(** C8, as stated, fails on the client a caller configures with an API key
    only: the serializer is [qs.stringify] with its default options, which
    writes the index of each element after the key, where the
    repeated-key style writes the key alone. *)
Lemma C8_default_serializer_is_not_repeated_key :
  HttpClient.serialize
    (HttpClient.createHttpClient node bare_options)
    (VObj [("method", VArr [VStr "ideal"; VStr "paypal"])])
  = Some "method%5B0%5D=ideal&method%5B1%5D=paypal"
  /\ String.concat "&" (map (repeated_entry "method")
                            [SStr "ideal"; SStr "paypal"])
     = "method=ideal&method=paypal"
  /\ HttpClient.serialize
       (HttpClient.createHttpClient node bare_options)
       (VObj [("method", VArr [VStr "ideal"; VStr "paypal"])])
     <> Some (String.concat "&" (map (repeated_entry "method")
                                     [SStr "ideal"; SStr "paypal"])).
Proof.
  split; [reflexivity|]. split; [reflexivity|].
  vm_compute. discriminate.
Qed.

(** C8, amended.  The client serializes query parameters with the
    serializer the caller supplied, when there is one, and with
    [qs.stringify] under its default options otherwise.  That default
    gives an array-valued parameter one [key[index]=value] entry per
    element, in the order of the elements, percent-encoded and joined by
    [&]: the indices style, not a comma-joined single value; the bare
    repeated key is what the [repeat] format of the library would give,
    which the code does not select. *)
Theorem C8_array_parameters_are_indexed
  (env : HttpClient.environment) (options : HttpClient.MollieRequestConfig)
  (params : value) (key : string) (items : list scalar) :
  HttpClient.serialize (HttpClient.createHttpClient env options) params
  = Some (match HttpClient.paramsSerializer options with
          | Some f => f params
          | None => Qs.stringify params
          end)
  /\ Qs.stringify (VObj [(key, VArr (map of_scalar items))])
     = String.concat "&" (map (indexed_entry key) (indexed 0 items))
  /\ Qs.stringify_with Qs.repeat (VObj [(key, VArr (map of_scalar items))])
     = String.concat "&" (map (repeated_entry key) items).
Proof.
  split.
  - unfold HttpClient.serialize, HttpClient.createHttpClient.
    cbn [HttpClient.paramsSerializer].
    now destruct (HttpClient.paramsSerializer options).
  - unfold Qs.stringify, Qs.stringify_with.
    cbn [Qs.not_an_object own_props flat_map fst snd].
    now rewrite pairs_array_indices, pairs_array_repeat, !app_nil_r.
Qed.

(** ** The id checks before a request *)

Lemma destructure1_defined (v : value) (name : string) :
  is_nullish v = false ->
  destructure1 v name = Ret (member v name, without name v).
Proof.
  intros H. unfold destructure1, destructure. now rewrite H.
Qed.

Lemma destructure0_defined (v : value) :
  is_nullish v = false ->
  destructure0 v = Ret (VObj (spread_then v [])).
Proof.
  intros _. reflexivity.
Qed.

(** C1 fails on [OrdersShipmentsResource.get]: the method checks the order
    id of its params and never the shipment id it is given, so for every
    id, with or without the shipment prefix, a promise-style call whose
    order id is well-formed binds it and hands the transport a GET on the
    path that ends in that id. *)
Theorem C1_shipments_get_does_not_check_the_shipment_id
  (id : string) (params : value) (w : world) :
  is_nullish params = false ->
  Lodash.startsWith (member params "orderId") Models.Order_resourcePrefix
  = true ->
  let rq :=
    mkRequest GET
      (entity (nested "orders" (member params "orderId") "shipments") id)
      (without "orderId" params) VUndef in
  exists k,
    start (OrdersShipmentsResource.get id (AVal params) None) w
    = (Pending rq k, log (Requested rq) (bound (member params "orderId") w)).
Proof.
  intros Hp Ho. unfold OrdersShipmentsResource.get.
  cbn [is_function is_some orb arg_value].
  rewrite (destructure1_defined _ _ Hp). cbn [bind].
  rewrite Ho. cbn.
  eexists. reflexivity.
Qed.

(** C1 at the id [xyz_1], which has not the shipment prefix: the request
    is made. *)
Lemma C1_witness :
  Lodash.startsWith (VStr "xyz_1") Models.Shipment_resourcePrefix = false
  /\ exists k,
      start (OrdersShipmentsResource.get "xyz_1"
               (AVal (VObj [("orderId", VStr "ord_1")])) None) fresh
      = (Pending (mkRequest GET "orders/ord_1/shipments/xyz_1" (VObj []) VUndef)
                 k,
         mkWorld (VStr "ord_1")
           [Requested (mkRequest GET "orders/ord_1/shipments/xyz_1"
                                 (VObj []) VUndef)]).
Proof.
  split; [reflexivity|].
  exact (C1_shipments_get_does_not_check_the_shipment_id
           "xyz_1" (VObj [("orderId", VStr "ord_1")]) fresh
           eq_refl eq_refl).
Defined.

(** The checks that are there: on order lines (update, cancel), on payment
    refunds (get, cancel) and on the update of order shipments an id
    without its prefix raises Invalid Input; the error goes to the trailing
    callback when there is one; nothing is bound and nothing requested. *)
Lemma id_checks_of_the_sources
  (id : string) (cb : option callback) (transport : request -> response)
  (w : world) :
  (Lodash.startsWith (VStr id) Models.Order_resourcePrefix = false ->
   (forall params,
       is_nullish params = false ->
       run transport (OrdersLinesResource.update id params cb) w
       = (Threw (InvalidInput "The order id is invalid"),
          reported cb (InvalidInput "The order id is invalid") w))
   /\ (forall params,
          run transport (OrdersLinesResource.cancel id params cb) w
          = (Threw (InvalidInput "The order id is invalid"),
             reported cb (InvalidInput "The order id is invalid") w)))
  /\ (Lodash.startsWith (VStr id) Models.Refund_resourcePrefix = false ->
      forall params,
        run transport (PaymentsRefundsResource.get id params cb) w
        = (Threw (InvalidInput "The refund id is invalid"),
           reported cb (InvalidInput "The refund id is invalid") w)
        /\ run transport (PaymentsRefundsResource.cancel id params cb) w
           = (Threw (InvalidInput "The refund id is invalid"),
              reported cb (InvalidInput "The refund id is invalid") w))
  /\ (Lodash.startsWith (VStr id) Models.Shipment_resourcePrefix = false ->
      forall params,
        is_nullish params = false ->
        run transport (OrdersShipmentsResource.update id params cb) w
        = (Threw (InvalidInput "The shipment id is invalid"),
           reported cb (InvalidInput "The shipment id is invalid") w)).
Proof.
  repeat split; intros.
  - unfold OrdersLinesResource.update.
    rewrite destructure0_defined by assumption. cbn [bind].
    rewrite H. now destruct cb.
  - unfold OrdersLinesResource.cancel. rewrite H. now destruct cb.
  - unfold PaymentsRefundsResource.get. rewrite H. now destruct cb.
  - unfold PaymentsRefundsResource.cancel. rewrite H. now destruct cb.
  - unfold OrdersShipmentsResource.update.
    rewrite destructure1_defined by assumption. cbn [bind].
    rewrite H. now destruct cb.
Qed.

(** ** The binding of the parent id *)

Lemma get_given (params : arg) (key : string) :
  includes key "." = false -> includes key "[" = false ->
  Lodash.get (arg_value params) key VUndef = Some (given params key).
Proof.
  intros H1 H2. rewrite (get_plain _ _ _ H1 H2). unfold given.
  destruct params as [v|c]; cbn.
  - now destruct (is_nullish v); [|destruct (member v key)].
  - reflexivity.
Qed.

Lemma requests_app (t u : list event) :
  requests (t ++ u) = (requests t ++ requests u)%list.
Proof.
  induction t as [|[rq|c e r] t IH]; simpl; [reflexivity| |assumption].
  now rewrite IH.
Qed.

(** The steps the proofs about the resource methods repeat: unfold the
    method, use the checks that are known to pass or fail, settle the
    destructuring and the lookups. *)
Ltac unfold_methods :=
  unfold OrdersLinesResource.update, OrdersLinesResource.cancel,
    OrdersShipmentsResource.create, OrdersShipmentsResource.update,
    OrdersShipmentsResource.list, OrdersShipmentsResource.get,
    PaymentsRefundsResource.create, PaymentsRefundsResource.get,
    PaymentsRefundsResource.cancel.

Ltac use_checks :=
  repeat match goal with
         | E : Lodash.startsWith _ _ = _ |- _ => rewrite E; clear E
         end.

Ltac settle_lookup :=
  repeat first
    [ rewrite destructure1_defined by assumption
    | rewrite destructure0_defined by assumption
    | rewrite get_given by reflexivity ];
  cbn [bind attempt when negb is_function is_some orb arg_value
       pick_params pick_callback].

Ltac split_ready H :=
  unfold well_formed, ready, parent_ok in H;
  cbn [params_of own_parent parent_prefix] in H;
  repeat (apply andb_true_iff in H; destruct H as [H ?]);
  try apply negb_true_iff in H.

(** A well-formed binding call, from any instance state: its synchronous
    prefix binds the parent id of the call and hands the transport the
    request whose path is composed from that id. *)
Lemma binding_call_starts (c : binding_call) (w : world) :
  well_formed c = true ->
  start (program c) w
  = (Pending (own_request c) (continuation c),
     log (Requested (own_request c)) (bound (own_parent c) w)).
Proof.
  intros H.
  destruct c; split_ready H;
    cbn [program own_request own_parent request_under];
    unfold_methods; use_checks; settle_lookup; use_checks; settle_lookup;
    reflexivity.
Qed.


(** It settles at once, requests nothing more and leaves the binding as
    it finds it. *)
Lemma continuation_final (c : binding_call) : final (continuation c).
Proof.
  intros r [p t]. unfold continuation, Resource.errorHandler.
  destruct r as [data|resp];
    [|destruct (Resource.classify resp) as [e|]];
    destruct (trailing c); cbn; eexists;
    first [ solve [exists []; rewrite app_nil_r; split; reflexivity]
          | solve [eexists; split; reflexivity] ].
Qed.

(** A binding call whose parent id fails its check, from any instance
    state, whatever is bound: Invalid Input, which also goes to the
    trailing callback; nothing is bound and nothing requested. *)
Lemma binding_call_rejects (c : binding_call)
  (transport : request -> response) (w : world) :
  ready c = true ->
  parent_ok c = false ->
  run transport (program c) w
  = (Threw (InvalidInput (parent_message c)),
     reported (trailing c) (InvalidInput (parent_message c)) w).
Proof.
  intros H P. unfold parent_ok in P.
  destruct c; unfold ready in H;
    cbn [params_of own_parent parent_prefix] in H, P;
    repeat (apply andb_true_iff in H; destruct H as [H ?]);
    apply negb_true_iff in H;
    cbn [program parent_message trailing];
    unfold_methods; settle_lookup; use_checks; settle_lookup;
    try (now destruct cb); reflexivity.
Qed.




(** *** Any number of overlapping calls *)

Lemma drop_nth_final (n : nat) (ks : list (response -> prog value)) :
  Forall final ks -> Forall final (drop_nth n ks).
Proof.
  intros H. revert n.
  induction H as [|k ks Hk H IH]; intros [|n]; simpl; auto.
Qed.

(** One step of an interleaving: beginning a well-formed call adds its own
    request, delivering a response adds none. *)
Lemma act_keeps_paths_apart (a : action) (s : shared) :
  Forall (fun c => well_formed c = true) (begun [a]) ->
  Forall final (awaiting s) ->
  requests (trace (instance (act s a)))
  = (requests (trace (instance s)) ++ map own_request (begun [a]))%list
  /\ Forall final (awaiting (act s a)).
Proof.
  intros W F. destruct a as [c|n r]; cbn [act begun map].
  - inversion W as [|c' l' Hc _]; subst.
    rewrite (binding_call_starts c (instance s) Hc).
    cbn [instance awaiting log bound trace]. split.
    + now rewrite requests_app.
    + apply Forall_app. split; [exact F|].
      constructor; [apply continuation_final | constructor].
  - rewrite app_nil_r.
    destruct (nth_error (awaiting s) n) as [k|] eqn:E; [|now split].
    cbn [instance awaiting]. split; [|now apply drop_nth_final].
    apply nth_error_In in E.
    rewrite Forall_forall in F.
    destruct (F k E r (instance s)) as [x [new [S N]]].
    unfold resume. rewrite S. cbn [snd trace].
    now rewrite requests_app, N, app_nil_r.
Qed.

(** However the beginnings of well-formed binding calls and the
    deliveries of responses interleave on one instance, the requests made
    are those of the calls begun, in order, each with the path of its own
    parent id. *)
Lemma interleaving_keeps_paths_apart (l : list action) :
  forall s,
    Forall (fun c => well_formed c = true) (begun l) ->
    Forall final (awaiting s) ->
    requests (trace (instance (interleave l s)))
    = (requests (trace (instance s)) ++ map own_request (begun l))%list
    /\ Forall final (awaiting (interleave l s)).
Proof.
  induction l as [|a l IH]; intros s W F.
  - cbn. now rewrite app_nil_r.
  - assert (Wa : Forall (fun c => well_formed c = true) (begun [a])
                 /\ Forall (fun c => well_formed c = true) (begun l)).
    { destruct a; cbn [begun] in *.
      - inversion W; subst. split; [now constructor | assumption].
      - split; [constructor | assumption]. }
    destruct Wa as [Wa Wl].
    destruct (act_keeps_paths_apart a s Wa F) as [R F'].
    destruct (IH (act s a) Wl F') as [R' F''].
    unfold interleave in *. cbn [fold_left]. split; [|exact F''].
    rewrite R', R, <- app_assoc. f_equal.
    destruct a; reflexivity.
Qed.

(** Three calls on one instance, the responses arriving out of order. *)
Example three_overlapping_calls :
  map url (requests (trace (instance (interleave
    [Begin (ShipmentList (VObj [("orderId", VStr "ord_1")]) None);
     Begin (ShipmentGet "shp_2" (VObj [("orderId", VStr "ord_2")]));
     Deliver 1 (Fulfilled VNull);
     Begin (ShipmentCreate (VObj [("orderId", VStr "ord_3")]) (Some 9));
     Deliver 0 (Failed VUndef);
     Deliver 0 (Fulfilled VNull)]
    (mkShared fresh [])))))
  = ["orders/ord_1/shipments"; "orders/ord_2/shipments/shp_2";
     "orders/ord_3/shipments"].
Proof. reflexivity. Qed.

(** ** The parent id of a call *)

Ltac unfold_lookup :=
  cbn [lookup_id_ok lookup_key lookup_prefix lookup_message lookup_call
       lookup_request] in *.

(** C3, as stated, fails in promise style: a parent id bound by an earlier
    call is not consulted.  After [get re_1] under payment [tr_1], a
    [get re_2] whose params carry no payment id raises Invalid Input and
    requests nothing, although [tr_1] is bound.  Nor does the stated
    precedence hold elsewhere:
    - with [undefined] for params, the same [get] throws the raw
      [TypeError] of the destructuring, not Invalid Input;
    - in callback style, a [get] whose params name payment [tr_2] has that
      id checked and not bound, and is sent under the bound [tr_1];
    - the list of payment refunds checks nothing: with no payment id in
      its params and none bound it does not fail. *)
Lemma C3_bound_parent_is_not_used_without_callback :
  let first :=
    run (answering VNull)
        (PaymentsRefundsResource.get "re_1"
           (AVal (VObj [("paymentId", VStr "tr_1")])) None)
        fresh in
  fst first = Ok VNull
  /\ parentId (snd first) = VStr "tr_1"
  /\ run (answering VNull)
         (PaymentsRefundsResource.get "re_2" (AVal (VObj [])) None)
         (snd first)
     = (Threw (InvalidInput "The payment id is invalid"), snd first)
  /\ run (answering VNull)
         (PaymentsRefundsResource.get "re_2" (AVal VUndef) None)
         (snd first)
     = (Threw TypeError, snd first)
  /\ requests (trace (snd (run (answering VNull)
                 (PaymentsRefundsResource.get "re_2"
                    (AVal (VObj [("paymentId", VStr "tr_2")])) (Some 7))
                 (mkWorld (VStr "tr_1") []))))
     = [mkRequest GET "payments/tr_1/refunds/re_2"
                  (VObj [("paymentId", VStr "tr_2")]) VUndef]
  /\ fst (run (answering VNull)
              (PaymentsRefundsResource.list (AVal (VObj [])) None) fresh)
     = Ok VNull.
Proof. repeat split. Qed.

(** C3, amended.  From every instance state, whatever is bound on it:
    - a call that binds (create, update and list on order shipments,
      create on payment refunds and update and cancel on order lines, in
      either calling style; get on order shipments and get and cancel on
      payment refunds in promise style), made with a params object and
      with an id that passes the method's own check, takes its parent id
      from the call and from nothing else: when it has the parent prefix
      it is bound and the path of the request is composed from it; when it
      is missing or malformed the call fails with Invalid Input, which
      also goes to the trailing callback, and requests nothing, even when
      a parent id was bound before;
    - a callback-style get (order shipments, payment refunds) or cancel
      (payment refunds), with an id that passes the method's own check,
      whose params carry no parent id (none, or a falsy one) uses the
      parent id bound by an earlier call: when that has the parent prefix
      the path is composed from it and the call goes to the transport;
      when nothing well-formed is bound the call fails with Invalid Input,
      which also goes to the trailing callback, and requests nothing.
    Nothing is stated of the list of payment refunds, nor of a
    callback-style get or cancel whose params do carry a parent id. *)
Theorem C3_parent_id_resolution
  (c : binding_call) (m : lookup) (id : string) (w : world) :
  ready c = true ->
  lookup_id_ok m id = true ->
  (parent_ok c = true ->
   exists k,
     start (program c) w
     = (Pending (request_under (own_parent c) c) k,
        log (Requested (request_under (own_parent c) c))
            (bound (own_parent c) w)))
  /\ (parent_ok c = false ->
      forall transport,
        run transport (program c) w
        = (Threw (InvalidInput (parent_message c)),
           reported (trailing c) (InvalidInput (parent_message c)) w))
  /\ (forall params cb,
         is_function params || is_some cb = true ->
         truthy (given params (lookup_key m)) = false ->
         (Lodash.startsWith (parentId w) (lookup_prefix m) = true ->
          exists k,
            start (lookup_call m id params cb) w
            = (Pending
                 (lookup_request m (parentId w) id (pick_params params)) k,
               log (Requested
                      (lookup_request m (parentId w) id (pick_params params)))
                   w))
         /\ (Lodash.startsWith (parentId w) (lookup_prefix m) = false ->
             forall transport,
               run transport (lookup_call m id params cb) w
               = (Threw (InvalidInput (lookup_message m)),
                  reported cb (InvalidInput (lookup_message m)) w))).
Proof.
  intros Hc Hid. split; [|split].
  - intros Hp. exists (continuation c).
    apply binding_call_starts. unfold well_formed. now rewrite Hc, Hp.
  - intros Hp transport. now apply binding_call_rejects.
  - intros params cb Hstyle Hgiven. split; intros Hp; [|intros transport];
      destruct m; unfold_lookup; unfold_methods;
      rewrite ?Hid; cbn [when negb bind]; rewrite Hstyle; settle_lookup;
      unfold or_else; rewrite Hgiven;
      cbn [bind this_parentId start run]; rewrite Hp;
      first [now destruct cb | eexists; reflexivity].
Qed.

(** C3 on an instance that has [tr_1] bound: a promise-style [get re_2]
    without a payment id fails, a callback-style one goes to the path
    under [tr_1]. *)
Lemma C3_witness :
  run (answering VNull)
      (PaymentsRefundsResource.get "re_2" (AVal (VObj [])) None)
      (mkWorld (VStr "tr_1") [])
  = (Threw (InvalidInput "The payment id is invalid"),
     mkWorld (VStr "tr_1") [])
  /\ exists k,
      start (PaymentsRefundsResource.get "re_2" (AFun 5) None)
            (mkWorld (VStr "tr_1") [])
      = (Pending (mkRequest GET "payments/tr_1/refunds/re_2" VNull VUndef) k,
         mkWorld (VStr "tr_1")
           [Requested
              (mkRequest GET "payments/tr_1/refunds/re_2" VNull VUndef)]).
Proof.
  destruct (C3_parent_id_resolution
              (RefundGet "re_2" (VObj [])) PaymentsRefundsGet "re_2"
              (mkWorld (VStr "tr_1") []) eq_refl eq_refl) as [_ [N H]].
  split.
  - exact (N eq_refl (answering VNull)).
  - destruct (H (AFun 5) None eq_refl eq_refl) as [H1 _].
    exact (H1 eq_refl).
Defined.

(** What the amended C3 leaves open: in callback style the parent id of
    the params is checked and not bound, so that with [tr_1] bound a
    callback-style [get] for payment [tr_2] has its path, which the base
    class composes, under [tr_1]; and the [list] of payment refunds takes
    no parent id from its params and checks none. *)
Remark callback_style_get_keeps_the_bound_parent :
  requests (trace (snd (run (answering VNull)
    (PaymentsRefundsResource.get "re_1"
       (AVal (VObj [("paymentId", VStr "tr_2")])) (Some 1))
    (mkWorld (VStr "tr_1") []))))
  = [mkRequest GET "payments/tr_1/refunds/re_1"
               (VObj [("paymentId", VStr "tr_2")]) VUndef].
Proof. reflexivity. Qed.

Remark payments_refunds_list_checks_no_parent :
  requests (trace (snd (run (answering VNull)
    (PaymentsRefundsResource.list
       (AVal (VObj [("paymentId", VStr "tr_2")])) None)
    fresh)))
  = [mkRequest GET "payments/undefined/refunds"
               (VObj [("paymentId", VStr "tr_2")]) VUndef].
Proof. reflexivity. Qed.

(** ** The legacy callback *)

Lemma ends_with_sound (p : prog value) (err : option error) (res : value) :
  ends_with p err res ->
  forall transport w,
    settled_with (fst (run transport p w)) err res
    /\ exists new,
        trace (snd (run transport p w)) = (trace w ++ new)%list
        /\ invocations new = [].
Proof.
  induction p as [a|e|k IH|v k IH|c e r k IH|rq k IH];
    cbn [ends_with run]; intros H transport w.
  - split; [exact H|]. exists []. now rewrite app_nil_r.
  - split; [exact H|]. exists []. now rewrite app_nil_r.
  - apply IH, H.
  - apply (IH H transport (bound v w)).
  - destruct H.
  - destruct (IH (transport rq) (H (transport rq)) transport
                 (log (Requested rq) w)) as [S [new [T I]]].
    split; [exact S|]. exists (Requested rq :: new). split; [|exact I].
    rewrite T. cbn [log trace]. now rewrite <- app_assoc.
Qed.

(** A program that is [once] calls a callback at most once in every run,
    an allowed one, and what the callback is given is what the run
    settles with. *)
Lemma once_sound (allowed : callback -> Prop) (p : prog value) :
  once allowed p ->
  forall transport w,
  exists new,
    trace (snd (run transport p w)) = (trace w ++ new)%list
    /\ length (invocations new) <= 1
    /\ forall c err res,
         In (c, err, res) (invocations new) ->
         allowed c /\ settled_with (fst (run transport p w)) err res.
Proof.
  induction p as [a|e|k IH|v k IH|c e r k IH|rq k IH];
    cbn [once run]; intros H transport w.
  - exists []. rewrite app_nil_r.
    split; [reflexivity|]. split; [simpl; lia|]. intros ? ? ? [].
  - exists []. rewrite app_nil_r.
    split; [reflexivity|]. split; [simpl; lia|]. intros ? ? ? [].
  - apply IH, H.
  - apply (IH H transport (bound v w)).
  - destruct H as [A H].
    destruct (ends_with_sound k e r H transport
                (log (CalledBack c e r) w)) as [S [new [T I]]].
    exists (CalledBack c e r :: new). split; [|split].
    + rewrite T. cbn [log trace]. now rewrite <- app_assoc.
    + cbn [invocations]. rewrite I. simpl. lia.
    + cbn [invocations]. rewrite I. intros c' e' r' [E|[]].
      injection E as <- <- <-. split; [exact A | exact S].
  - destruct (IH (transport rq) (H (transport rq)) transport
                 (log (Requested rq) w)) as [new [T [L S]]].
    exists (Requested rq :: new). split; [|split].
    + rewrite T. cbn [log trace]. now rewrite <- app_assoc.
    + exact L.
    + exact S.
Qed.

(** The inherited operations call the callback they are handed, at most
    once, with what they settle with. *)
Section Inherited.

Variable allowed : callback -> Prop.
Variable cb : option callback.
Hypothesis handed : forall c, cb = Some c -> allowed c.

Lemma errorHandler_once (response : value) :
  once allowed (Resource.errorHandler response cb).
Proof.
  unfold Resource.errorHandler.
  destruct (Resource.classify response); [|exact I].
  destruct cb; [split; [now apply handed | reflexivity] | exact I].
Qed.

Lemma send_once (rq : request) (hydrate : value -> value) :
  once allowed (Resource.send rq hydrate cb).
Proof.
  intros [data|resp]; [|apply errorHandler_once].
  destruct cb; [split; [now apply handed | split; reflexivity] | exact I].
Qed.

Lemma invalid_once (message : string) (k : value -> prog value) :
  once allowed (bind (Resource.invalid message cb) k).
Proof.
  destruct cb; [split; [now apply handed | reflexivity] | exact I].
Qed.

Lemma inherited_once (d : Resource.descriptor) (id : string)
  (params : value) :
  once allowed (Resource.create d params cb)
  /\ once allowed (Resource.get d id params cb)
  /\ once allowed (Resource.list d params cb)
  /\ once allowed (Resource.update d id params cb)
  /\ once allowed (Resource.delete d id params cb).
Proof.
  unfold Resource.create, Resource.get, Resource.list, Resource.update,
    Resource.delete, Resource.getResourceUrl.
  destruct (split "_" (Resource.resource d)) as [|a [|b [|c l]]];
    cbn [bind once]; repeat split; intros; apply send_once.
Qed.

End Inherited.

Lemma trailing_is_supplied (params : arg) (cb : option callback) :
  forall c, cb = Some c -> supplied params cb c.
Proof. intros c E. now left. Qed.

Lemma picked_is_supplied (params : arg) (cb : option callback) :
  forall c, pick_callback params cb = Some c -> supplied params cb c.
Proof.
  intros c E. destruct params as [v|c']; cbn in E.
  - now left.
  - right. congruence.
Qed.

Ltac is_supplied :=
  first [apply trailing_is_supplied | apply picked_is_supplied].

Ltac once_crunch :=
  cbn [bind when negb map attempt is_function is_some orb
       Resource.setParentId once];
  match goal with
  | |- True => exact I
  | |- forall _, _ => intro
  | |- once _ (bind (Resource.invalid _ _) _) =>
      apply invalid_once; is_supplied
  | |- once _ (Resource.create _ _ _) =>
      apply (fun h => proj1 (inherited_once _ _ h _ EmptyString _));
      is_supplied
  | |- once _ (Resource.list _ _ _) =>
      apply (fun h => proj1 (proj2 (proj2
               (inherited_once _ _ h _ EmptyString _))));
      is_supplied
  | |- once _ (Resource.get _ _ _ _) =>
      apply (fun h => proj1 (proj2 (inherited_once _ _ h _ _ _)));
      is_supplied
  | |- once _ (Resource.update _ _ _ _) =>
      apply (fun h => proj1 (proj2 (proj2 (proj2
               (inherited_once _ _ h _ _ _)))));
      is_supplied
  | |- once _ (Resource.delete _ _ _ _) =>
      apply (fun h => proj2 (proj2 (proj2 (proj2
               (inherited_once _ _ h _ _ _)))));
      is_supplied
  | |- once _ (bind (when (negb ?c) _) _) => destruct c
  | |- once _ (bind (destructure1 ?v _) _) =>
      unfold destructure1, destructure; destruct (is_nullish v)
  | |- once _ (bind (destructure0 ?v) _) => unfold destructure0
  | |- once _ (bind (attempt ?o) _) => destruct o
  | |- once _ (bind (or_else ?a _) _) =>
      unfold or_else, this_parentId; destruct (truthy a)
  | |- once _ (if ?c then _ else _) => destruct c
  end.

(** Every operation of the resource classes keeps the discipline, with
    the callbacks the call supplies. *)
Lemma invoke_once (o : operation) (id : string) (params : arg)
  (cb : option callback) :
  once (supplied params cb) (invoke o id params cb).
Proof.
  destruct o as [ | | | | | | | | | | | | | | |d];
    [ .. | destruct d; exact I];
    cbn [invoke];
    unfold OrdersLinesResource.delete, PaymentsRefundsResource.all,
      PaymentsRefundsResource.delete, RefundsResource.all,
      PaymentsRefundsResource.list, RefundsResource.list;
    unfold_methods;
    repeat once_crunch.
Qed.

(** C7.  In every call of every operation, with the legacy callback as
    the trailing argument, in the params slot, in both or in neither, from
    every instance state and whatever the transport answers: the events of
    the call hold at most one callback invocation; the callback invoked is
    one the call supplied, and what it was given, the success value or the
    classified error, is what the returned future resolves or rejects
    with. *)
Theorem C7_callback_fires_at_most_once_with_the_settled_value
  (o : operation) (id : string) (params : arg) (cb : option callback)
  (transport : request -> response) (w : world) :
  exists new,
    trace (snd (run transport (invoke o id params cb) w))
    = (trace w ++ new)%list
    /\ length (invocations new) <= 1
    /\ forall c err res,
         In (c, err, res) (invocations new) ->
         supplied params cb c
         /\ settled_with (fst (run transport (invoke o id params cb) w))
                         err res.
Proof.
  apply once_sound, invoke_once.
Qed.

(** The callback does fire: a callback-style [list] of refunds that the
    transport answers, and a [get] under a malformed payment id. *)
Example callback_fires_on_success :
  run (answering (VObj [("count", VNum 0)]))
      (RefundsResource.list (AFun 3) None) fresh
  = (Ok (VObj [("count", VNum 0)]),
     mkWorld VUndef
       [Requested (mkRequest GET "refunds" VNull VUndef);
        CalledBack 3 None (VObj [("count", VNum 0)])]).
Proof. reflexivity. Qed.

Example callback_fires_on_invalid_input :
  run (answering VNull)
      (PaymentsRefundsResource.get "re_1"
         (AVal (VObj [("paymentId", VStr "ord_1")])) (Some 4))
      fresh
  = (Threw (InvalidInput "The payment id is invalid"),
     mkWorld VUndef
       [CalledBack 4 (Some (InvalidInput "The payment id is invalid"))
                   VUndef]).
Proof. reflexivity. Qed.

(** ** The classifier *)

(** The classifier itself never throws: every response, whatever is
    missing from it, is classified. *)
Lemma classify_total (response : value) :
  exists e, Resource.classify response = Some e.
Proof.
  unfold Resource.classify.
  destruct (get_total response "error.message" VUndef) as [local ->].
  destruct (createFromResponse_never_throws response) as [e ->].
  destruct local; eexists; reflexivity.
Qed.

(** [Resource.errorHandler] always raises, and never a [TypeError] of its
    own. *)
Lemma errorHandler_raises (resp : value) (cb : option callback)
  (transport : request -> response) (w : world) :
  exists e,
    Resource.classify resp = Some e
    /\ run transport (Resource.errorHandler resp cb) w
       = (Threw e, reported cb e w).
Proof.
  destruct (classify_total resp) as [e E]. exists e.
  split; [exact E|]. unfold Resource.errorHandler. rewrite E.
  now destruct cb.
Qed.

(* ================================================================== *)
(** * Further properties of the sources *)

(** ** The accessors of an ApiError *)

Lemma owns_total (path : list string) :
  forall object, exists b, Lodash.owns object path = Some b.
Proof.
  induction path as [|k r IH]; intros object; cbn [Lodash.owns].
  - now exists true.
  - destruct (is_nullish object) eqn:E; cbn [orb]; [now exists false|].
    destruct (has_prop object k); cbn [negb]; [|now exists false].
    rewrite (read_defined _ _ E). apply IH.
Qed.

Lemma has_total (object : value) (path : string) :
  exists b, Lodash.has object path = Some b.
Proof.
  unfold Lodash.has. destruct (is_nullish object); [now exists false|].
  apply owns_total.
Qed.

Lemma get_property (object : value) (k : string) :
  includes k "." = false -> includes k "[" = false ->
  Lodash.get object k VUndef = Some (property object k).
Proof.
  intros H1 H2. rewrite (get_plain _ _ _ H1 H2). unfold property. cbn.
  now rewrite undefined_default.
Qed.

Lemma has_plain (object : value) (k : string) :
  includes k "." = false -> includes k "[" = false ->
  Lodash.has object k = Some (negb (is_nullish object) && has_prop object k).
Proof.
  intros H1 H2. unfold Lodash.has, Lodash.castPath, Lodash.isKey.
  rewrite H1, H2. cbn.
  destruct (is_nullish object) eqn:E; [reflexivity|]. cbn.
  destruct (has_prop object k); [|reflexivity]. cbn.
  now rewrite (read_defined _ _ E).
Qed.

(** X1.  The accessors of an [ApiError] never throw, whatever the links
    are (absent, [null], a string, an object whose entries are not link
    objects) and whatever the key is. *)
Theorem ApiError_accessors_never_throw (e : ApiError.t) (key : string) :
  (exists b, ApiError.hasLink e key = Some b)
  /\ (exists link, ApiError.getLink e key = Some link)
  /\ (exists u, ApiError.getUrl e key = Some u)
  /\ (exists u, ApiError.getDocumentationUrl e = Some u)
  /\ (exists u, ApiError.getDashboardUrl e = Some u).
Proof.
  assert (U : forall k, exists u, ApiError.getUrl e k = Some u).
  { intros k. unfold ApiError.getUrl, ApiError.getLink.
    destruct (get_total (ApiError.links e) k VUndef) as [link ->].
    apply get_total. }
  repeat split; try apply U.
  - apply has_total.
  - apply get_total.
Qed.

(** X2.  On an error without links, as one made from a response whose
    body has none, [hasLink] is false and [getLink], [getUrl],
    [getDocumentationUrl] and [getDashboardUrl] give [undefined]. *)
Theorem ApiError_without_links (e : ApiError.t) (key : string) :
  is_nullish (ApiError.links e) = true ->
  ApiError.hasLink e key = Some false
  /\ ApiError.getLink e key = Some VUndef
  /\ ApiError.getUrl e key = Some VUndef
  /\ ApiError.getDocumentationUrl e = Some VUndef
  /\ ApiError.getDashboardUrl e = Some VUndef.
Proof.
  intros H.
  assert (L : forall k, ApiError.getLink e k = Some VUndef).
  { intros k. unfold ApiError.getLink, Lodash.get. now rewrite H. }
  assert (U : forall k, ApiError.getUrl e k = Some VUndef).
  { intros k. unfold ApiError.getUrl. now rewrite L. }
  repeat split; try apply U; try apply L.
  unfold ApiError.hasLink, Lodash.has. now rewrite H.
Qed.

Lemma ApiError_without_links_witness :
  ApiError.hasLink
    (ApiError.new (VStr "Unauthorized") VUndef (VNum 401) VUndef VNull)
    "documentation" = Some false
  /\ ApiError.getDocumentationUrl
       (ApiError.new (VStr "Unauthorized") VUndef (VNum 401) VUndef VNull)
     = Some VUndef.
Proof.
  destruct (ApiError_without_links
              (ApiError.new (VStr "Unauthorized") VUndef (VNum 401) VUndef
                            VNull)
              "documentation" eq_refl) as [H [_ [_ [D _]]]].
  split; [exact H | exact D].
Defined.



(** X4.  On links that are no string and no array, for a key that is a
    plain name: [hasLink] says whether the links hold an entry of their
    own of that name, and when it says so [getLink] gives that entry. *)
Theorem ApiError_hasLink_getLink (e : ApiError.t) (key : string) :
  not_text (ApiError.links e) = true ->
  includes key "." = false ->
  includes key "[" = false ->
  ApiError.hasLink e key
  = Some (negb (is_nullish (ApiError.links e))
          && has_prop (ApiError.links e) key)
  /\ (ApiError.hasLink e key = Some true ->
      exists link,
        assoc key (own_props (ApiError.links e)) = Some link
        /\ ApiError.getLink e key = Some link).
Proof.
  intros _ H1 H2. unfold ApiError.hasLink, ApiError.getLink.
  rewrite (has_plain _ _ H1 H2), (get_property _ _ H1 H2).
  split; [reflexivity|]. intros H. injection H as H.
  apply andb_true_iff in H. destruct H as [N P].
  apply negb_true_iff in N. unfold property, member, has_prop in *.
  rewrite N. destruct (assoc key (own_props (ApiError.links e))) as [link|];
    [|discriminate].
  now exists link.
Qed.

Lemma ApiError_hasLink_getLink_witness :
  ApiError.getLink
    (ApiError.new (VStr "x") VUndef VUndef VUndef
       (VObj [("dashboard", VObj [("href", VStr "https://www.mollie.com/dashboard")])]))
    "dashboard"
  = Some (VObj [("href", VStr "https://www.mollie.com/dashboard")]).
Proof.
  destruct (ApiError_hasLink_getLink
              (ApiError.new (VStr "x") VUndef VUndef VUndef
                 (VObj [("dashboard",
                         VObj [("href", VStr "https://www.mollie.com/dashboard")])]))
              "dashboard" eq_refl eq_refl eq_refl) as [_ H].
  destruct (H eq_refl) as [link [A G]].
  injection A as <-. exact G.
Defined.

(** ** Object spread and destructuring *)

Lemma assoc_none_iff {A : Type} (k : string) (fs : list (string * A)) :
  assoc k fs = None <-> ~ In k (map fst fs).
Proof.
  induction fs as [|[k' x] r IH]; simpl.
  - tauto.
  - destruct (String.eqb k k') eqn:E.
    + apply String.eqb_eq in E. subst. split; [discriminate | tauto].
    + apply String.eqb_neq in E. rewrite IH. split.
      * intros N [H|H]; [now apply E | now apply N].
      * tauto.
Qed.

Lemma set_field_new (k : string) (x : value) fs :
  ~ In k (map fst fs) -> set_field k x fs = (fs ++ [(k, x)])%list.
Proof.
  induction fs as [|[k' y] r IH]; simpl; intros N; [reflexivity|].
  destruct (String.eqb k k') eqn:E.
  - apply String.eqb_eq in E. subst. tauto.
  - rewrite IH; tauto.
Qed.

Lemma set_field_names (k : string) (x : value) fs :
  map fst (set_field k x fs)
  = if existsb (String.eqb k) (map fst fs) then map fst fs
    else (map fst fs ++ [k])%list.
Proof.
  induction fs as [|[k' y] r IH]; simpl; [reflexivity|].
  destruct (String.eqb k k') eqn:E; simpl.
  - apply String.eqb_eq in E. now subst.
  - rewrite IH. now destruct (existsb (String.eqb k) (map fst r)).
Qed.

Lemma set_field_distinct (k : string) (x : value) fs :
  NoDup (map fst fs) -> NoDup (map fst (set_field k x fs)).
Proof.
  intros H. rewrite set_field_names.
  destruct (existsb (String.eqb k) (map fst fs)) eqn:E; [exact H|].
  apply NoDup_app; [exact H | repeat constructor; simpl; tauto |].
  intros a Ha [Ek|[]]. subst a.
  assert (T : existsb (String.eqb k) (map fst fs) = true).
  { apply existsb_exists. exists k. split; [exact Ha | apply String.eqb_refl]. }
  congruence.
Qed.

Lemma set_field_same_value (k : string) (x : value) fs :
  assoc k fs = Some x -> set_field k x fs = fs.
Proof.
  induction fs as [|[k' y] r IH]; simpl; [discriminate|].
  destruct (String.eqb k k') eqn:E.
  - apply String.eqb_eq in E. subst. now intros [= ->].
  - intros H. now rewrite IH.
Qed.

(** Spreading an object into a fresh one copies it: [{ ...a }] has the
    properties of [a], in their order. *)
Lemma spread_copies_from (fs acc : list (string * value)) :
  NoDup (map fst (acc ++ fs)) ->
  fold_left (fun a kx => set_field (fst kx) (snd kx) a) fs acc
  = (acc ++ fs)%list.
Proof.
  revert acc. induction fs as [|[k x] r IH]; intros acc H; cbn [fold_left].
  - now rewrite app_nil_r.
  - cbn [fst snd]. rewrite set_field_new.
    + rewrite IH; rewrite <- app_assoc; [reflexivity | exact H].
    + rewrite map_app in H. cbn in H.
      apply NoDup_remove_2 in H. intros N. apply H.
      apply in_or_app. now left.
Qed.

Lemma spread_copies (v : value) :
  distinct_names v -> spread_then v [] = own_props v.
Proof.
  intros H. unfold spread_then. cbn [fold_left].
  now apply (spread_copies_from (own_props v) []).
Qed.

Lemma remove_key_absent (k : string) fs :
  assoc k (remove_key k fs) = None.
Proof.
  induction fs as [|[k' y] r IH]; simpl; [reflexivity|].
  destruct (String.eqb k k') eqn:E; [exact IH|]. simpl. now rewrite E.
Qed.

Lemma remove_key_other (k k' : string) fs :
  String.eqb k' k = false ->
  assoc k' (remove_key k fs) = assoc k' fs.
Proof.
  intros N. induction fs as [|[k2 y] r IH]; simpl; [reflexivity|].
  destruct (String.eqb k k2) eqn:E.
  - apply String.eqb_eq in E. subst k2. now rewrite N.
  - simpl. now rewrite IH.
Qed.

(** X5.  The destructuring [const { orderId, ...parameters } = params] of
    the resource methods, and its twin for [paymentId], on params that
    are not [null] or [undefined]: it gives the property of that name
    and, as the rest, an object whose own properties are exactly those of
    the params without that name, in their order and with their values. *)
Theorem rest_of_destructuring (v : value) (name : string) :
  In name ["orderId"; "paymentId"] ->
  is_nullish v = false ->
  distinct_names v ->
  exists rest,
    destructure1 v name = Ret (member v name, rest)
    /\ own_props rest = remove_key name (own_props v)
    /\ assoc name (own_props rest) = None
    /\ forall k, String.eqb k name = false ->
                 assoc k (own_props rest) = assoc k (own_props v).
Proof.
  intros _ N H. exists (without name v).
  split; [now apply destructure1_defined|].
  unfold without. cbn [own_props]. rewrite (spread_copies v H).
  split; [reflexivity|]. split; [apply remove_key_absent|].
  intros k E. now apply remove_key_other.
Qed.

Lemma rest_of_destructuring_witness :
  destructure1 (VObj [("orderId", VStr "ord_1"); ("testmode", VBool true)])
               "orderId"
  = Ret (VStr "ord_1", VObj [("testmode", VBool true)]).
Proof.
  destruct (rest_of_destructuring
              (VObj [("orderId", VStr "ord_1"); ("testmode", VBool true)])
              "orderId") as [rest [D [O _]]].
  - simpl. now left.
  - reflexivity.
  - repeat constructor; simpl; intuition discriminate.
  - destruct rest as [| | | | | |fs];
      try (cbn in D; discriminate D).
    cbn [own_props] in O. subst fs. exact D.
Defined.

(** ** The headers of the HTTP client *)

Lemma assoc_spread (v : value) (more : list (string * value)) (k : string) :
  distinct_names v ->
  assoc k (spread_then v more)
  = match assoc k (rev more) with
    | Some x => Some x
    | None => assoc k (own_props v)
    end.
Proof.
  intros H. unfold spread_then.
  change (fold_left (fun fs kx => set_field (fst kx) (snd kx) fs)
                    (own_props v) [])
    with (spread_then v []).
  rewrite (spread_copies v H).
  generalize (own_props v) as base. clear H.
  induction more as [|[k' x] r IH] using rev_ind; intros base.
  - reflexivity.
  - rewrite fold_left_app, rev_app_distr. cbn [fold_left rev app fst snd assoc].
    destruct (String.eqb k k') eqn:E.
    + apply String.eqb_eq in E. subst. apply assoc_set_field_same.
    + rewrite assoc_set_field_other by exact E. apply IH.
Qed.

Lemma spread_distinct (v : value) (more : list (string * value)) :
  distinct_names v -> NoDup (map fst (spread_then v more)).
Proof.
  intros H. unfold spread_then.
  change (fold_left (fun fs kx => set_field (fst kx) (snd kx) fs)
                    (own_props v) [])
    with (spread_then v []).
  rewrite (spread_copies v H). unfold distinct_names in H.
  revert H. generalize (own_props v) as base.
  induction more as [|[k x] r IH]; intros base H; cbn [fold_left].
  - exact H.
  - apply IH. now apply set_field_distinct.
Qed.

(** The headers of the client, for the two statements below. *)
Lemma headers_of_the_client
  (env : HttpClient.environment) (options : HttpClient.MollieRequestConfig) :
  distinct_names (HttpClient.headers options) ->
  let sent := HttpClient.headers (HttpClient.createHttpClient env options) in
  member sent "Authorization"
  = VStr ("Bearer " ++ JS.toString (HttpClient.apiKey options))
  /\ member sent "Accept-Encoding" = VStr "gzip"
  /\ member sent "Content-Type" = VStr "application/json"
  /\ member sent "User-Agent"
     = VStr ("node.js/" ++ HttpClient.process_version env)
  /\ member sent "X-Mollie-User-Agent"
     = VStr ("mollie/" ++ HttpClient.version env)
  /\ (forall k, ~ In k fixed_names ->
                member sent k = member (HttpClient.headers options) k)
  /\ distinct_names sent.
Proof.
  intros H. cbv zeta. unfold HttpClient.createHttpClient.
  cbn [HttpClient.headers]. unfold member, distinct_names.
  cbn [own_props].
  repeat (split; [now rewrite (assoc_spread _ _ _ H)|]).
  split; [|now apply spread_distinct].
  intros k N. rewrite (assoc_spread _ _ _ H). cbn [rev app assoc].
  unfold fixed_names in N. cbn [In] in N.
  repeat match goal with
         | |- context [String.eqb k ?s] =>
             destruct (String.eqb_spec k s); [subst; exfalso; tauto|]
         end.
  reflexivity.
Qed.

(** X6.  Of the headers of the client: the five the function sets have
    the values it gives them, whatever the caller supplied under those
    names; every other header of the caller is kept with its value; and
    the names stay distinct. *)
Theorem createHttpClient_headers
  (env : HttpClient.environment) (options : HttpClient.MollieRequestConfig) :
  distinct_names (HttpClient.headers options) ->
  let sent := HttpClient.headers (HttpClient.createHttpClient env options) in
  member sent "Authorization"
  = VStr ("Bearer " ++ JS.toString (HttpClient.apiKey options))
  /\ member sent "Accept-Encoding" = VStr "gzip"
  /\ member sent "Content-Type" = VStr "application/json"
  /\ member sent "User-Agent"
     = VStr ("node.js/" ++ HttpClient.process_version env)
  /\ member sent "X-Mollie-User-Agent"
     = VStr ("mollie/" ++ HttpClient.version env)
  /\ (forall k, ~ In k fixed_names ->
                member sent k = member (HttpClient.headers options) k)
  /\ distinct_names sent.
Proof.
  exact (headers_of_the_client env options).
Qed.

Lemma createHttpClient_headers_witness :
  member (HttpClient.headers
            (HttpClient.createHttpClient node
               (HttpClient.mkConfig (VStr "test_key") VUndef
                  (VObj [("Content-Type", VStr "text/plain");
                         ("X-Request-Id", VStr "42")])
                  None None)))
         "Content-Type" = VStr "application/json"
  /\ member (HttpClient.headers
               (HttpClient.createHttpClient node
                  (HttpClient.mkConfig (VStr "test_key") VUndef
                     (VObj [("Content-Type", VStr "text/plain");
                            ("X-Request-Id", VStr "42")])
                     None None)))
            "X-Request-Id" = VStr "42".
Proof.
  destruct (createHttpClient_headers node
              (HttpClient.mkConfig (VStr "test_key") VUndef
                 (VObj [("Content-Type", VStr "text/plain");
                        ("X-Request-Id", VStr "42")])
                 None None))
    as [_ [_ [C [_ [_ [K _]]]]]].
  - repeat constructor; simpl; intuition discriminate.
  - split; [exact C|]. apply K. unfold fixed_names. simpl.
    intuition discriminate.
Defined.

(** X7.  Configuring is idempotent: handing the configured options to
    [createHttpClient] again, in the same environment, changes nothing. *)
Theorem createHttpClient_idempotent
  (env : HttpClient.environment) (options : HttpClient.MollieRequestConfig) :
  distinct_names (HttpClient.headers options) ->
  HttpClient.createHttpClient env (HttpClient.createHttpClient env options)
  = HttpClient.createHttpClient env options.
Proof.
  intros H.
  pose proof (headers_of_the_client env options H) as P. cbv zeta in P.
  destruct P as [A [B [C [D [E [_ F]]]]]].
  unfold HttpClient.createHttpClient at 1.
  set (client := HttpClient.createHttpClient env options) in *.
  assert (HA : HttpClient.httpsAgent client
               = if negb (is_undefined (HttpClient.window env))
                 then Some (HttpClient.mkAgent (HttpClient.cacert env))
                 else HttpClient.httpsAgent options) by reflexivity.
  assert (HS : HttpClient.paramsSerializer client
               = match HttpClient.paramsSerializer options with
                 | Some f => Some f
                 | None => Some Qs.stringify
                 end) by reflexivity.
  assert (HK : HttpClient.apiKey client = HttpClient.apiKey options)
    by reflexivity.
  assert (HH : exists fs, HttpClient.headers client = VObj fs)
    by (eexists; reflexivity).
  destruct HH as [fs Hfs].
  assert (HB : VStr HttpClient.API_ROOT = HttpClient.baseURL client)
    by reflexivity.
  assert (Hcopy : VObj (spread_then (HttpClient.headers client)
      [("Authorization",
        VStr ("Bearer " ++ JS.toString (HttpClient.apiKey client)));
       ("Accept-Encoding", VStr "gzip");
       ("Content-Type", VStr "application/json");
       ("User-Agent", VStr ("node.js/" ++ HttpClient.process_version env));
       ("X-Mollie-User-Agent", VStr ("mollie/" ++ HttpClient.version env))])
    = HttpClient.headers client).
  { unfold spread_then at 1.
    change (fold_left (fun fs kx => set_field (fst kx) (snd kx) fs)
                      (own_props (HttpClient.headers client)) [])
      with (spread_then (HttpClient.headers client) []).
    rewrite (spread_copies _ F), HK.
    rewrite Hfs in *. cbn [own_props fold_left fst snd].
    unfold member in A, B, C, D, E. cbn [own_props] in A, B, C, D, E.
    assert (G : forall k x, match assoc k fs with Some y => y | None => VUndef end
                            = VStr x -> assoc k fs = Some (VStr x)).
    { intros k x. destruct (assoc k fs); [now intros ->|discriminate]. }
    apply G in A, B, C, D, E.
    rewrite (set_field_same_value _ _ _ A), (set_field_same_value _ _ _ B),
      (set_field_same_value _ _ _ C), (set_field_same_value _ _ _ D),
      (set_field_same_value _ _ _ E).
    reflexivity. }
  rewrite Hcopy, HA, HS.
  destruct client as [k b h a s]. cbn in *. subst b.
  f_equal.
  - now destruct (is_undefined (HttpClient.window env)).
  - now destruct (HttpClient.paramsSerializer options).
Qed.

Lemma createHttpClient_idempotent_witness :
  HttpClient.createHttpClient node
    (HttpClient.createHttpClient node bare_options)
  = HttpClient.createHttpClient node bare_options.
Proof.
  apply createHttpClient_idempotent. constructor.
Defined.

(** ** What the resource methods hand to the inherited operations *)

(** X8.  A binding call that passes its checks is the inherited operation
    of its class, called on the instance bound to the parent id of the
    call, with the params that are left when the parent id is taken out
    (on order lines: with a copy of the params) and with the trailing
    callback. *)
Theorem binding_call_delegates
  (c : binding_call) (transport : request -> response) (w : world) :
  ready c = true ->
  parent_ok c = true ->
  run transport (program c) w
  = run transport (delegate c) (bound (own_parent c) w)
  /\ start (program c) w = start (delegate c) (bound (own_parent c) w).
Proof.
  intros H P.
  assert (W : well_formed c = true) by (unfold well_formed; now rewrite H, P).
  clear H P.
  destruct c; split_ready W;
    cbn [program delegate passed_on parent_key params_of own_parent];
    unfold_methods; use_checks; settle_lookup; use_checks; settle_lookup;
    cbn [Resource.setParentId bind run start]; split; reflexivity.
Qed.

Lemma binding_call_delegates_witness :
  run (answering VNull)
      (OrdersShipmentsResource.create
         (VObj [("orderId", VStr "ord_1"); ("lines", VArr [])]) None)
      fresh
  = run (answering VNull)
        (Resource.create OrdersShipmentsResource.this
           (VObj [("lines", VArr [])]) None)
        (mkWorld (VStr "ord_1") []).
Proof.
  exact (proj1 (binding_call_delegates
                  (ShipmentCreate
                     (VObj [("orderId", VStr "ord_1"); ("lines", VArr [])])
                     None)
                  (answering VNull) fresh eq_refl eq_refl)).
Defined.



(** X10.  The two places of the legacy callback are not treated alike when
    a check fails.  In [get] and [cancel], a callback in the params slot
    is not told of an id or a parent id that fails its check: the call
    only rejects.  The same callback as the trailing argument is told,
    once, before the call rejects with the same error. *)
Theorem callback_in_params_slot_is_not_told
  (m : lookup) (id : string) (fn : callback)
  (transport : request -> response) (w : world) :
  lookup_id_ok m id
  && Lodash.startsWith (parentId w) (lookup_prefix m) = false ->
  exists message,
    run transport (lookup_call m id (AFun fn) None) w
    = (Threw (InvalidInput message), w)
    /\ run transport (lookup_call m id (AVal VNull) (Some fn)) w
       = (Threw (InvalidInput message),
          log (CalledBack fn (Some (InvalidInput message)) VUndef) w).
Proof.
  intros H. apply andb_false_iff in H.
  destruct m; unfold_lookup; unfold_methods;
    cbn [is_function is_some orb];
    (destruct H as [H|H]; [try discriminate|]);
    try (rewrite H; eexists; split; reflexivity);
    try (destruct (Lodash.startsWith (VStr id) Models.Refund_resourcePrefix);
         [|eexists; split; reflexivity]);
    settle_lookup; unfold or_else; cbn; rewrite H;
    eexists; split; reflexivity.
Qed.

Lemma callback_in_params_slot_is_not_told_witness :
  exists message,
    run (answering VNull) (PaymentsRefundsResource.get "re_1" (AFun 8) None)
        fresh
    = (Threw (InvalidInput message), fresh).
Proof.
  destruct (callback_in_params_slot_is_not_told
              PaymentsRefundsGet "re_1" 8 (answering VNull) fresh eq_refl)
    as [message [H _]].
  now exists message.
Defined.

(** X11.  The lists check nothing and bind nothing.  In each of the
    calling styles [list] is the inherited list, called with the params,
    or with [null] when a function stands in their place, and with that
    function or else the trailing argument as callback.  So the list of
    payment refunds, which takes no parent id from its params, hands the
    transport one GET on the path under whatever is bound on the
    instance, and the list of refunds one GET on [refunds]. *)
Theorem lists_delegate_unchecked
  (params : arg) (cb : option callback) (transport : request -> response)
  (w : world) :
  run transport (PaymentsRefundsResource.list params cb) w
  = run transport
        (Resource.list PaymentsRefundsResource.this (pick_params params)
                       (pick_callback params cb)) w
  /\ run transport (RefundsResource.list params cb) w
     = run transport
           (Resource.list RefundsResource.this (pick_params params)
                          (pick_callback params cb)) w
  /\ (exists k,
         start (PaymentsRefundsResource.list params cb) w
         = (Pending
              (mkRequest GET (nested "payments" (parentId w) "refunds")
                         (pick_params params) VUndef) k,
            log (Requested
                   (mkRequest GET (nested "payments" (parentId w) "refunds")
                              (pick_params params) VUndef)) w))
  /\ (exists k,
         start (RefundsResource.list params cb) w
         = (Pending (mkRequest GET "refunds" (pick_params params) VUndef) k,
            log (Requested
                   (mkRequest GET "refunds" (pick_params params) VUndef))
                w)).
Proof.
  unfold PaymentsRefundsResource.list, RefundsResource.list.
  destruct params as [v|fn], cb as [c|];
    repeat split; try reflexivity; eexists; reflexivity.
Qed.

(** ** One call after another *)







(** The id checks of the sources, at a refund id without its prefix and a
    trailing callback. *)
Lemma id_checks_of_the_sources_witness :
  run (answering VNull)
      (PaymentsRefundsResource.cancel "tr_1"
         (AVal (VObj [("paymentId", VStr "tr_1")])) (Some 6))
      fresh
  = (Threw (InvalidInput "The refund id is invalid"),
     mkWorld VUndef
       [CalledBack 6 (Some (InvalidInput "The refund id is invalid"))
                   VUndef]).
Proof.
  destruct (id_checks_of_the_sources "tr_1" (Some 6) (answering VNull) fresh)
    as [_ [R _]].
  exact (proj2 (R eq_refl (AVal (VObj [("paymentId", VStr "tr_1")])))).
Defined.

(** Any interleaving, at two calls whose responses arrive in the order
    opposite to their beginnings. *)
Lemma interleaving_keeps_paths_apart_witness :
  requests (trace (instance (interleave
    [Begin (ShipmentList (VObj [("orderId", VStr "ord_1")]) None);
     Begin (ShipmentGet "shp_2" (VObj [("orderId", VStr "ord_2")]));
     Deliver 1 (Fulfilled VNull);
     Deliver 0 (Fulfilled VNull)]
    (mkShared fresh []))))
  = [mkRequest GET "orders/ord_1/shipments" (VObj []) VUndef;
     mkRequest GET "orders/ord_2/shipments/shp_2" (VObj []) VUndef].
Proof.
  refine (proj1 (interleaving_keeps_paths_apart
            [Begin (ShipmentList (VObj [("orderId", VStr "ord_1")]) None);
             Begin (ShipmentGet "shp_2" (VObj [("orderId", VStr "ord_2")]));
             Deliver 1 (Fulfilled VNull);
             Deliver 0 (Fulfilled VNull)]
            (mkShared fresh []) _ _)).
  - repeat constructor.
  - constructor.
Defined.

(** ** The default serializer *)

Lemma all_chars_app (f : ascii -> bool) (s t : string) :
  all_chars f (s ++ t) = all_chars f s && all_chars f t.
Proof.
  induction s as [|c s IH]; simpl; [reflexivity|].
  now rewrite IH, andb_assoc.
Qed.

Lemma hex_digit_unreserved (n : nat) : Qs.unreserved (Qs.hex_digit n) = true.
Proof.
  do 16 (destruct n as [|n]; [reflexivity|]).
  unfold Qs.hex_digit. cbn [nth]. now destruct n.
Qed.

(** X16.  What [utils.encode] gives is made of unreserved characters and
    percent escapes only, whatever the string: neither the [&] that
    separates the entries of a query string nor the [=] inside an entry
    can come out of a key or of a value. *)
Theorem encode_leaves_no_separator (s : string) :
  all_chars encoded_char (Qs.encode s) = true
  /\ encoded_char "&" = false
  /\ encoded_char "=" = false.
Proof.
  split; [|split; reflexivity].
  induction s as [|c s IH]; cbn [Qs.encode]; [reflexivity|].
  destruct (Qs.unreserved c) eqn:U.
  - cbn [all_chars]. unfold encoded_char at 1. now rewrite U, IH.
  - rewrite all_chars_app, IH, andb_true_r.
    unfold Qs.percent. cbn [all_chars]. unfold encoded_char.
    now rewrite !hex_digit_unreserved.
Qed.

Lemma pairs_of_defined (fs : list (string * value)) :
  flat_map (fun kx => Qs.pairs Qs.indices (snd kx) (fst kx)) fs
  = flat_map (fun kx => Qs.pairs Qs.indices (snd kx) (fst kx))
             (filter (fun kx => negb (is_undefined (snd kx))) fs).
Proof.
  induction fs as [|[k x] r IH]; [reflexivity|].
  cbn [flat_map filter fst snd].
  destruct x; cbn [is_undefined negb flat_map fst snd]; now rewrite IH.
Qed.

(** X17.  Under the default serializer a parameter whose value is
    [undefined] is left out of the query string, wherever it stands among
    the others; one whose value is [null] is sent with an empty value. *)
Theorem undefined_parameters_are_left_out
  (env : HttpClient.environment) (options : HttpClient.MollieRequestConfig)
  (fs : list (string * value)) (key : string) :
  HttpClient.paramsSerializer options = None ->
  HttpClient.serialize (HttpClient.createHttpClient env options) (VObj fs)
  = HttpClient.serialize (HttpClient.createHttpClient env options)
      (VObj (filter (fun kx => negb (is_undefined (snd kx))) fs))
  /\ HttpClient.serialize (HttpClient.createHttpClient env options)
       (VObj [(key, VNull)])
     = Some (Qs.encode key ++ "=").
Proof.
  intros H. unfold HttpClient.serialize, HttpClient.createHttpClient.
  cbn [HttpClient.paramsSerializer]. rewrite H.
  unfold Qs.stringify, Qs.stringify_with. cbn [Qs.not_an_object own_props].
  split; [now rewrite pairs_of_defined | reflexivity].
Qed.

Lemma undefined_parameters_are_left_out_witness :
  HttpClient.serialize (HttpClient.createHttpClient node bare_options)
    (VObj [("from", VUndef); ("limit", VNum 10); ("testmode", VUndef)])
  = HttpClient.serialize (HttpClient.createHttpClient node bare_options)
      (VObj [("limit", VNum 10)]).
Proof.
  exact (proj1 (undefined_parameters_are_left_out node bare_options
                  [("from", VUndef); ("limit", VNum 10);
                   ("testmode", VUndef)]
                  EmptyString eq_refl)).
Defined.

(** ** Parent ids that are no strings *)




(** An array passes through its string form: the check reads [[ord_1]] as
    [ord_1], and so does the path. *)
Example array_parent_id_passes :
  requests (trace (snd (run (answering VNull)
    (OrdersShipmentsResource.list
       (VObj [("orderId", VArr [VStr "ord_1"])]) None)
    fresh)))
  = [mkRequest GET "orders/ord_1/shipments" (VObj []) VUndef].
Proof. reflexivity. Qed.
